(** * Web-To-React: the HTML-to-JSX converter

    A shallow embedding of [src/converters/convertHTMLtoJSX.js], the
    properties of it that the specification states, and further
    properties that the code itself shows.

    Conventions of the embedding.
    - A JavaScript string is a [string]; the model is exact on ASCII text
      (case conversion and white space are those of the ASCII range, every
      other character is an ordinary caseless character).
    - The markup tokenizer (htmlparser2) is a dependency of the converter,
      not part of it: the converter is the set of callbacks it hands to the
      tokenizer.  A document is therefore given by the sequence of callbacks
      the tokenizer makes for it ([event]); a void element such as [<br>]
      produces an open callback immediately followed by a close callback.
    - The attribute object of a tag is the list of its entries, in the order
      [Object.entries] lists them.
    - The module-level variables ([customClassCounter], [cssVarMap],
      [imageImportsMap], [sanitizedFilenameMap]) are the fields of
      [Globals], threaded through every call by a state monad.
    - [JSON.parse] followed by [JSON.stringify] is a service of the host; it
      is a parameter ([json]) of the functions that reach it. *)

From stdpp Require Import base tactics option list strings gmap pretty.
From Stdlib Require Import Ascii String.

(** ** Characters and strings of the host *)

Module Js.

(** The double quote, which no literal of this file contains. *)
Definition dq : string := String (ascii_of_nat 34) "".

Definition isLower (c : ascii) : bool :=
  let n := nat_of_ascii c in (97 <=? n) && (n <=? 122).
Definition isUpper (c : ascii) : bool :=
  let n := nat_of_ascii c in (65 <=? n) && (n <=? 90).
(** [[a-z]] under the [i] flag. *)
Definition isLetter (c : ascii) : bool := isLower c || isUpper c.
(** [\s], and the characters [trim] removes. *)
Definition isSpace (c : ascii) : bool :=
  let n := nat_of_ascii c in ((9 <=? n) && (n <=? 13)) || (n =? 32).
(** The characters [.] does not match. *)
Definition isLineTerminator (c : ascii) : bool :=
  let n := nat_of_ascii c in (n =? 10) || (n =? 13).

Definition lowerChar (c : ascii) : ascii :=
  if isUpper c then ascii_of_nat (nat_of_ascii c + 32) else c.
Definition upperChar (c : ascii) : ascii :=
  if isLower c then ascii_of_nat (nat_of_ascii c - 32) else c.

Fixpoint mapChars (f : ascii → ascii) (s : string) : string :=
  match s with
  | "" => ""
  | String c s' => String (f c) (mapChars f s')
  end.

Definition toLowerCase : string → string := mapChars lowerChar.
Definition toUpperCase : string → string := mapChars upperChar.

(** [s.startsWith(p)] *)
Fixpoint startsWith (p s : string) : bool :=
  match p, s with
  | "", _ => true
  | String a p', String b s' => bool_decide (a = b) && startsWith p' s'
  | String _ _, "" => false
  end.

(** [s.substring(n)] and [s.slice(n)] for [0 <= n]. *)
Fixpoint drop (n : nat) (s : string) : string :=
  match n, s with
  | O, _ => s
  | S n', String _ s' => drop n' s'
  | S _, "" => ""
  end.

(** [s.endsWith(p)] *)
Definition endsWith (p s : string) : bool :=
  (String.length p <=? String.length s)
  && bool_decide (drop (String.length s - String.length p) s = p).

(** [s.includes(p)] *)
Fixpoint includes (p s : string) : bool :=
  startsWith p s
  || match s with
     | "" => false
     | String _ s' => includes p s'
     end.

Fixpoint trimStart (s : string) : string :=
  match s with
  | String c s' => if isSpace c then trimStart s' else s
  | "" => ""
  end.
Definition trimEnd (s : string) : string :=
  String.rev (trimStart (String.rev s)).
Definition trim (s : string) : string := trimEnd (trimStart s).

(** [s.charAt(0)] and [s.slice(1)] *)
Definition charAt0 (s : string) : string :=
  match s with String c _ => String c "" | "" => "" end.
Definition slice1 (s : string) : string := drop 1 s.

(** [s.split(sep)] for a separator that is not empty: [skip] counts the
    characters of a separator occurrence still to pass over, [cur] holds
    the piece being read, reversed. *)
Fixpoint split_go (sep : string) (skip : nat) (cur : string) (s : string)
  : list string :=
  match s with
  | "" => [String.rev cur]
  | String c s' =>
      match skip with
      | S k => split_go sep k cur s'
      | O =>
          if startsWith sep s
          then String.rev cur :: split_go sep (String.length sep - 1) "" s'
          else split_go sep 0 (String c cur) s'
      end
  end.
Definition split (sep s : string) : list string := split_go sep 0 "" s.

(** [parts.join(sep)] *)
Fixpoint join (sep : string) (parts : list string) : string :=
  match parts with
  | [] => ""
  | [p] => p
  | p :: ps => p +:+ sep +:+ join sep ps
  end.

(** [s.replace(/c/g, r)] for a one-character pattern. *)
Fixpoint replaceChar (c : ascii) (r : string) (s : string) : string :=
  match s with
  | "" => ""
  | String d s' =>
      (if bool_decide (d = c) then r else String d "") +:+ replaceChar c r s'
  end.

(** [s.replace(/-([a-z])/g, (_, c) => c.toUpperCase())] *)
Fixpoint camelCase (s : string) : string :=
  match s with
  | "" => ""
  | String c s' =>
      match s' with
      | String d s'' =>
          if bool_decide (c = "-"%char) && isLower d
          then String (upperChar d) (camelCase s'')
          else String c (camelCase s')
      | "" => String c ""
      end
  end.

(** What is truthy of a string. *)
Definition truthy (s : string) : bool := negb (bool_decide (s = "")).

End Js.

Import Js.

(** ** Tables of the module *)

(** [attributeRenameMap] as written (lines 6-43). *)
Definition attributeRenameBase : list (string * string) :=
  [ ("class", "className"); ("for", "htmlFor"); ("readonly", "readOnly");
    ("maxlength", "maxLength"); ("tabindex", "tabIndex");
    ("colspan", "colSpan"); ("rowspan", "rowSpan");
    ("contenteditable", "contentEditable");
    ("autocomplete", "autoComplete"); ("autofocus", "autoFocus");
    ("autoplay", "autoPlay"); ("srcset", "srcSet");
    ("crossorigin", "crossOrigin"); ("enctype", "encType");
    ("novalidate", "noValidate"); ("usemap", "useMap");
    ("viewbox", "viewBox"); ("preserveaspectratio", "preserveAspectRatio");
    ("fill-rule", "fillRule"); ("clip-rule", "clipRule");
    ("fill-opacity", "fillOpacity"); ("stroke-width", "strokeWidth");
    ("stroke-linecap", "strokeLinecap"); ("stroke-linejoin", "strokeLinejoin");
    ("stroke-dasharray", "strokeDasharray");
    ("stroke-dashoffset", "strokeDashoffset");
    ("stroke-opacity", "strokeOpacity"); ("spellcheck", "spellCheck");
    ("datetime", "dateTime"); ("acceptcharset", "acceptCharset");
    ("allowfullscreen", "allowFullScreen"); ("inputmode", "inputMode");
    ("hreflang", "hrefLang"); ("referrerpolicy", "referrerPolicy") ].

(** [svgAttributes] (lines 377-459). *)
Definition svgAttributes : list (string * string) :=
  [ ("accent-height", "accentHeight");
    ("alignment-baseline", "alignmentBaseline");
    ("arabic-form", "arabicForm"); ("baseline-shift", "baselineShift");
    ("cap-height", "capHeight"); ("clip-path", "clipPath");
    ("color-interpolation", "colorInterpolation");
    ("color-interpolation-filters", "colorInterpolationFilters");
    ("color-profile", "colorProfile"); ("color-rendering", "colorRendering");
    ("dominant-baseline", "dominantBaseline");
    ("enable-background", "enableBackground");
    ("flood-color", "floodColor"); ("flood-opacity", "floodOpacity");
    ("font-family", "fontFamily"); ("font-size", "fontSize");
    ("font-size-adjust", "fontSizeAdjust"); ("font-stretch", "fontStretch");
    ("font-style", "fontStyle"); ("font-variant", "fontVariant");
    ("font-weight", "fontWeight"); ("glyph-name", "glyphName");
    ("glyph-orientation-horizontal", "glyphOrientationHorizontal");
    ("glyph-orientation-vertical", "glyphOrientationVertical");
    ("horiz-adv-x", "horizAdvX"); ("horiz-origin-x", "horizOriginX");
    ("image-rendering", "imageRendering");
    ("letter-spacing", "letterSpacing"); ("lighting-color", "lightingColor");
    ("marker-end", "markerEnd"); ("marker-mid", "markerMid");
    ("marker-start", "markerStart");
    ("overline-position", "overlinePosition");
    ("overline-thickness", "overlineThickness");
    ("paint-order", "paintOrder"); ("panose-1", "panose1");
    ("pointer-events", "pointerEvents");
    ("rendering-intent", "renderingIntent");
    ("shape-rendering", "shapeRendering"); ("stop-color", "stopColor");
    ("stop-opacity", "stopOpacity");
    ("strikethrough-position", "strikethroughPosition");
    ("strikethrough-thickness", "strikethroughThickness");
    ("stroke-dasharray", "strokeDasharray");
    ("stroke-dashoffset", "strokeDashoffset");
    ("stroke-linecap", "strokeLinecap"); ("stroke-linejoin", "strokeLinejoin");
    ("stroke-miterlimit", "strokeMiterlimit");
    ("stroke-opacity", "strokeOpacity"); ("stroke-width", "strokeWidth");
    ("text-anchor", "textAnchor"); ("text-decoration", "textDecoration");
    ("text-rendering", "textRendering");
    ("underline-position", "underlinePosition");
    ("underline-thickness", "underlineThickness");
    ("unicode-bidi", "unicodeBidi"); ("unicode-range", "unicodeRange");
    ("units-per-em", "unitsPerEm"); ("v-alphabetic", "vAlphabetic");
    ("v-hanging", "vHanging"); ("v-ideographic", "vIdeographic");
    ("v-mathematical", "vMathematical"); ("vector-effect", "vectorEffect");
    ("vert-adv-y", "vertAdvY"); ("vert-origin-x", "vertOriginX");
    ("vert-origin-y", "vertOriginY"); ("word-spacing", "wordSpacing");
    ("writing-mode", "writingMode"); ("x-height", "xHeight");
    ("xlink:actuate", "xlinkActuate"); ("xlink:arcrole", "xlinkArcrole");
    ("xlink:href", "xlinkHref"); ("xlink:role", "xlinkRole");
    ("xlink:show", "xlinkShow"); ("xlink:title", "xlinkTitle");
    ("xlink:type", "xlinkType"); ("xml:base", "xmlBase");
    ("xml:lang", "xmlLang"); ("xml:space", "xmlSpace") ].

(** The two lower-case names every object literal inherits; a read of
    [attributeRenameMap[k]] finds them, and the template literal prints
    the value found. *)
Definition inheritedMembers : list (string * string) :=
  [ ("constructor", "function Object() { [native code] }");
    ("__proto__", "[object Object]") ].

(** An object as the list of its entries: a write replaces the value of a
    key already there and appends a new key ([Map.set] does the same). *)
Fixpoint objSet {V} (k : string) (v : V) (o : list (string * V))
  : list (string * V) :=
  match o with
  | [] => [(k, v)]
  | (k', v') :: o' =>
      if decide (k' = k) then (k, v) :: o' else (k', v') :: objSet k v o'
  end.

Fixpoint objGet {V} (k : string) (o : list (string * V)) : option V :=
  match o with
  | [] => None
  | (k', v') :: o' => if decide (k' = k) then Some v' else objGet k o'
  end.

(** [attributeRenameMap] once line 462 has copied [svgAttributes] into it. *)
Definition attributeRenameMap : list (string * string) :=
  foldl (λ m kv, objSet kv.1 kv.2 m) attributeRenameBase svgAttributes.

(** [attributeRenameMap[k]] where it is tested for truth. *)
Definition renameLookup (k : string) : option string :=
  match objGet k attributeRenameMap with
  | Some v => Some v
  | None => objGet k inheritedMembers
  end.

Definition booleanAttributes : list string :=
  [ "disabled"; "checked"; "readonly"; "required";
    "autofocus"; "selected"; "multiple"; "novalidate";
    "allowfullscreen"; "autoplay"; "controls"; "loop";
    "muted"; "playsinline"; "default"; "ismap";
    "reversed"; "async"; "defer"; "nomodule";
    "spellcheck"; "autocomplete"; "translate"; "contenteditable" ].

Definition selfClosingTags : list string :=
  [ "area"; "base"; "br"; "col"; "embed";
    "hr"; "img"; "input"; "keygen"; "link";
    "meta"; "param"; "source"; "track"; "wbr" ].

(** [set.has(x)] *)
Definition has (x : string) (set : list string) : bool :=
  bool_decide (x ∈ set).

(** ** The module-level state *)

(** The counter is a natural number: it starts at 0 and is only ever
    incremented, and a class name prints it in decimal. *)
Record Globals := mkGlobals {
  customClassCounter : nat;
  cssVarMap : list (string * list (string * string));
  imageImportsMap : list (string * string);
  sanitizedFilenameMap : gmap string string
}.

(** The state of a freshly loaded module. *)
Definition freshGlobals : Globals :=
  {| customClassCounter := 0; cssVarMap := [];
     imageImportsMap := []; sanitizedFilenameMap := ∅ |}.

(** Computations over the module-level state. *)
Definition M (A : Type) : Type := Globals → A * Globals.

#[global] Instance M_ret : MRet M := λ A a g, (a, g).
#[global] Instance M_bind : MBind M :=
  λ A B f m g, let '(a, g') := m g in f a g'.

Definition gets {A} (f : Globals → A) : M A := λ g, (f g, g).
Definition modify (f : Globals → Globals) : M unit := λ g, (tt, f g).

Fixpoint foldM {A B} (f : B → A → M B) (b : B) (l : list A) : M B :=
  match l with
  | [] => mret b
  | a :: l' => b' ← f b a; foldM f b' l'
  end.

(** [toJSXEventName] *)
Definition toJSXEventName (attr : string) : string :=
  match attr with
  | String o (String n (String c rest)) =>
      if bool_decide (o = "o"%char) && bool_decide (n = "n"%char) && isLower c
      then String o (String n (String (upperChar c) rest))
      else attr
  | _ => attr
  end.

(** The first two pieces of [s.split(sep)], as the destructuring
    [const [a, b] = s.split(sep)] binds them. *)
Definition firstTwo (l : list string) : string * option string :=
  match l with
  | [] => ("", None)
  | [a] => (a, None)
  | a :: b :: _ => (a, Some b)
  end.

(** One declaration of [convertStyle]'s loop, on the pair
    [(jsStyles, cssVars)]. *)
Definition convertDecl (acc : list string * list (string * string))
    (decl : string) : list string * list (string * string) :=
  let '(jsStyles, cssVars) := acc in
  match firstTwo (split ":" decl) with
  | (propRaw, Some valueRaw) =>
      if negb (truthy propRaw) || negb (truthy valueRaw) then acc else
      let prop := trim propRaw in
      let value := trim valueRaw in
      if negb (truthy prop) || negb (truthy value) then acc else
      if startsWith "--" prop then (jsStyles, objSet prop value cssVars)
      else
        let jsProp := camelCase prop in
        if includes "url(" value && includes "'" value
        then (jsStyles ++ [jsProp +:+ ": " +:+ dq +:+ value +:+ dq], cssVars)
        else (jsStyles ++ [jsProp +:+ ": '" +:+ value +:+ "'"], cssVars)
  | (_, None) => acc
  end.

(** [convertStyle]: the style object text ([None] for [null]) and the
    custom properties. *)
Definition convertStyle (styleString : string)
  : option string * list (string * string) :=
  let '(jsStyles, cssVars) := foldl convertDecl ([], []) (split ";" styleString) in
  (match jsStyles with
   | [] => None
   | _ => Some ("{{ " +:+ join ", " jsStyles +:+ " }}")
   end, cssVars).

(** [isBooleanValue] *)
Definition isBooleanValue (value : string) : bool :=
  let lower := toLowerCase value in
  bool_decide (lower = "true") || bool_decide (lower = "false")
  || bool_decide (lower = "").

(** ** Image paths and the import table *)

Definition imageExtensions : list string :=
  [ "svg"; "png"; "jpg"; "jpeg"; "gif"; "webp"; "avif" ].

(** Whether the whole of [s] is a dot and one of the extensions, in any
    case: the pattern [\.(svg|png|jpg|jpeg|gif|webp|avif)$] tried at the
    first character of [s]. *)
Definition isImageExtSuffix (s : string) : bool :=
  match toLowerCase s with
  | String "." e => has e imageExtensions
  | _ => false
  end.

(** The pattern tried at every position from the left: what precedes the
    match, when there is one. *)
Fixpoint stripImageExt (s : string) : option string :=
  if isImageExtSuffix s then Some ""
  else match s with
       | "" => None
       | String c s' => String c <$> stripImageExt s'
       end.

(** [/\.(svg|png|jpg|jpeg|gif|webp|avif)$/i.test(s)] *)
Definition testImageExt (s : string) : bool :=
  bool_decide (is_Some (stripImageExt s)).

(** [generateImageImportName] *)
Definition generateImageImportName (filename : string) : string :=
  let baseName := default filename (stripImageExt filename) in
  join ""
    (imap (λ index part,
       match index with
       | O => toLowerCase part
       | S _ => toUpperCase (charAt0 part) +:+ toLowerCase (slice1 part)
       end)
     (split "_" baseName)).

(** [resetImageImports] *)
Definition resetImageImports : M unit :=
  modify (λ g, {| customClassCounter := customClassCounter g;
                  cssVarMap := cssVarMap g;
                  imageImportsMap := [];
                  sanitizedFilenameMap := sanitizedFilenameMap g |}).

(** [setSanitizedFilenameMap] *)
Definition setSanitizedFilenameMap (mapping : gmap string string) : M unit :=
  modify (λ g, {| customClassCounter := customClassCounter g;
                  cssVarMap := cssVarMap g;
                  imageImportsMap := imageImportsMap g;
                  sanitizedFilenameMap := mapping |}).

(** [imageImportsMap.set(filename, importName)] *)
Definition registerImage (filename importName : string) : M unit :=
  modify (λ g, {| customClassCounter := customClassCounter g;
                  cssVarMap := cssVarMap g;
                  imageImportsMap := objSet filename importName (imageImportsMap g);
                  sanitizedFilenameMap := sanitizedFilenameMap g |}).

(** [sanitizedFilenameMap[k]] where it is tested for truth: an entry
    whose value is the empty string counts as absent.  The map is read as a
    dictionary, through its own entries. *)
Definition sanitizedLookup (k : string) : M (option string) :=
  gets (λ g, match sanitizedFilenameMap g !! k with
             | Some v => if truthy v then Some v else None
             | None => None
             end).

(** [parts.pop()] of a split, which is never empty. *)
Definition pop (parts : list string) : string := default "" (last parts).

(** [fixHtmlImagePath] *)
Definition fixHtmlImagePath (src : string) : M string :=
  if negb (truthy src) then mret src else
  if startsWith "data:" src || startsWith "http://" src
     || startsWith "https://" src
  then mret src else
  exact ← sanitizedLookup src;
  stripped ← (if startsWith "/" src then sanitizedLookup (drop 1 src)
              else mret None);
  match exact, stripped with
  | Some sanitizedFilename, _ | None, Some sanitizedFilename =>
      if testImageExt sanitizedFilename then
        let importName := generateImageImportName sanitizedFilename in
        registerImage sanitizedFilename importName;;
        mret ("{" +:+ importName +:+ "}")
      else mret (dq +:+ "./images-flat/" +:+ sanitizedFilename +:+ dq)
  | None, None =>
      let filename :=
        if startsWith "/" src then pop (split "/" src)
        else if includes "images-flat/" src then pop (split "images-flat/" src)
        else pop (split "/" src) in
      if truthy filename && testImageExt filename then
        let importName := generateImageImportName filename in
        registerImage filename importName;;
        mret ("{" +:+ importName +:+ "}")
      else mret src
  end.

(** The line feed. *)
Definition lf : string := String (ascii_of_nat 10) "".

(** [getImageImports] *)
Definition getImageImports : M string :=
  gets (λ g,
    match imageImportsMap g with
    | [] => ""
    | entries =>
        join lf
          (map (λ '(filename, importName),
             "import " +:+ importName +:+ " from './images-flat/"
             +:+ filename +:+ "';") entries)
    end).

(** [escapeJSXText] *)
Definition escapeJSXText (text : string) : string :=
  replaceChar ">" "&gt;" (replaceChar "<" "&lt;" (replaceChar "&" "&amp;" text)).

(** ** Attributes *)

(** The attribute name of the output (lines 296-315). *)
Definition jsxKeyOf (key : string) : string :=
  let keyLower := toLowerCase key in
  if includes ":" key then
    let '(namespace, attr) := firstTwo (split ":" key) in
    let attr := default "" attr in
    if bool_decide (toLowerCase namespace = "xmlns")
    then "xmlns" +:+ toUpperCase (charAt0 attr) +:+ slice1 attr
    else namespace +:+ toUpperCase (charAt0 attr) +:+ slice1 attr
  else match renameLookup keyLower with
       | Some renamed => renamed
       | None =>
           if startsWith "on" keyLower then toJSXEventName keyLower
           else if includes "-" keyLower then camelCase keyLower
           else key
       end.

(** The values line 268 passes over. *)
Definition skippedValue (value : string) : bool :=
  negb (truthy value) || bool_decide (value = "")
  || bool_decide (value = "{}") || bool_decide (value = "[]")
  || bool_decide (value = "null").

(** [customClassCounter++] and the class name made of the new count. *)
Definition mintCustomClass (cssVars : list (string * string)) : M string :=
  modify (λ g, {| customClassCounter := S (customClassCounter g);
                  cssVarMap := cssVarMap g;
                  imageImportsMap := imageImportsMap g;
                  sanitizedFilenameMap := sanitizedFilenameMap g |});;
  n ← gets customClassCounter;
  let customClass := "custom-var-" +:+ pretty n in
  modify (λ g, {| customClassCounter := customClassCounter g;
                  cssVarMap := objSet customClass cssVars (cssVarMap g);
                  imageImportsMap := imageImportsMap g;
                  sanitizedFilenameMap := sanitizedFilenameMap g |});;
  mret customClass.

(** Whether [existingClass] is truthy: neither [null] nor empty. *)
Definition truthyClass (existingClass : option string) : bool :=
  match existingClass with
  | Some c => truthy c
  | None => false
  end.

Section Converter.

(** [json v] is [JSON.stringify(JSON.parse(v))], and [None] when
    [JSON.parse(v)] throws. *)
Variable json : string → option string.

(** One turn of the loop of [convertAttributes], on the pair of its
    local variables [(jsx, existingClass)]. *)
Definition convertAttribute (acc : string * option string)
    (entry : string * string) : M (string * option string) :=
  let '(jsx, existingClass) := acc in
  let '(key, value) := entry in
  let keyLower := toLowerCase key in
  if skippedValue value then mret acc else
  if bool_decide (keyLower = "class") || bool_decide (keyLower = "classname")
  then mret (jsx, Some (trim value)) else
  if bool_decide (keyLower = "style") then
    let '(styleString, cssVars) := convertStyle value in
    let jsx := match styleString with
               | Some s => jsx +:+ " style=" +:+ s
               | None => jsx
               end in
    match cssVars with
    | [] => mret (jsx, existingClass)
    | _ =>
        customClass ← mintCustomClass cssVars;
        mret (jsx,
              Some (if truthyClass existingClass
                    then default "" existingClass +:+ " " +:+ customClass
                    else customClass))
    end
  else
  let jsxKey := jsxKeyOf key in
  if bool_decide (keyLower = "data-props") || startsWith "data-" keyLower then
    let escapedValue :=
      match json value with
      | Some stringified => replaceChar (ascii_of_nat 34) "&quot;" stringified
      | None => replaceChar (ascii_of_nat 34) "&quot;" value
      end in
    mret (jsx +:+ " " +:+ jsxKey +:+ "=" +:+ dq +:+ escapedValue +:+ dq,
          existingClass)
  else
  attributeValue ← (if bool_decide (keyLower = "src")
                    then fixHtmlImagePath value else mret value);
  if startsWith "{" attributeValue && endsWith "}" attributeValue then
    mret (jsx +:+ " " +:+ jsxKey +:+ "=" +:+ attributeValue, existingClass)
  else if has keyLower booleanAttributes then
    if bool_decide (value = "") || bool_decide (value = keyLower) then
      mret (jsx +:+ " " +:+ jsxKey +:+ "={true}", existingClass)
    else if bool_decide (value = "false") then
      mret (jsx +:+ " " +:+ jsxKey +:+ "={false}", existingClass)
    else if isBooleanValue value then
      mret (jsx +:+ " " +:+ jsxKey +:+ "={" +:+ toLowerCase value +:+ "}",
            existingClass)
    else
      mret (jsx +:+ " " +:+ jsxKey +:+ "=" +:+ dq +:+ attributeValue +:+ dq,
            existingClass)
  else
    let escapedValue := replaceChar (ascii_of_nat 34) "&quot;" attributeValue in
    mret (jsx +:+ " " +:+ jsxKey +:+ "=" +:+ dq +:+ escapedValue +:+ dq,
          existingClass).

(** [convertAttributes] *)
Definition convertAttributes (attrs : list (string * string)) : M string :=
  '(jsx, existingClass) ← foldM convertAttribute ("", None) attrs;
  if truthyClass existingClass
  then mret (jsx +:+ " className=" +:+ dq +:+ default "" existingClass +:+ dq)
  else mret jsx.

End Converter.

(** [generateCSSFromVars] *)
Definition generateCSSFromVars
    (cssVarMap : list (string * list (string * string))) : string :=
  join (lf +:+ lf)
    (map (λ '(className, vars),
       let lines := map (λ '(k, v), "  " +:+ k +:+ ": " +:+ v +:+ ";") vars in
       "." +:+ className +:+ " {" +:+ lf +:+ join lf lines +:+ lf +:+ "}")
     cssVarMap).

(** ** The tokenizer's callbacks *)

Inductive event :=
| OpenTag (name : string) (attributes : list (string * string))
| Text (text : string)
| CloseTag (tagname : string)
| Comment (data : string).

(** The local variables of one call of [convertHTMLtoJSX]. *)
Record Context := mkContext {
  output : string;
  stack : list (string * bool);       (* top first: [(tag, selfClosing)] *)
  inBodyTag : bool;
  skipTag : bool;
  currentSkipTag : option string;
  depth : Z;
  bodyTagFound : bool;
  outputBeforeBodyTag : string;
  bodyAttributes : option (list (string * string))
}.

Definition initialContext : Context :=
  {| output := ""; stack := []; inBodyTag := false; skipTag := false;
     currentSkipTag := None; depth := 0; bodyTagFound := false;
     outputBeforeBodyTag := ""; bodyAttributes := None |}.

Definition skipTags : list string :=
  [ "html"; "head"; "script"; "noscript"; "iframe" ].

(** [s.replace(/^.*?:/, '')]: what follows the first colon, when only
    characters that [.] matches precede it. *)
Fixpoint afterFirstColon (s : string) : option string :=
  match s with
  | "" => None
  | String c s' =>
      if bool_decide (c = ":"%char) then Some s'
      else if isLineTerminator c then None
      else afterFirstColon s'
  end.

(** [name.toLowerCase().replace(/^.*?:/, '')] *)
Definition tagNameOf (name : string) : string :=
  let lower := toLowerCase name in
  default lower (afterFirstColon lower).

(** Entering a subtree to pass over (lines 503-505 and 528-530). *)
Definition startSkipping (tagName : string) (c : Context) : Context :=
  {| output := output c; stack := stack c; inBodyTag := inBodyTag c;
     skipTag := true; currentSkipTag := Some tagName; depth := 1;
     bodyTagFound := bodyTagFound c;
     outputBeforeBodyTag := outputBeforeBodyTag c;
     bodyAttributes := bodyAttributes c |}.

Definition setDepth (d : Z) (c : Context) : Context :=
  {| output := output c; stack := stack c; inBodyTag := inBodyTag c;
     skipTag := skipTag c; currentSkipTag := currentSkipTag c; depth := d;
     bodyTagFound := bodyTagFound c;
     outputBeforeBodyTag := outputBeforeBodyTag c;
     bodyAttributes := bodyAttributes c |}.

Definition stopSkipping (c : Context) : Context :=
  {| output := output c; stack := stack c; inBodyTag := inBodyTag c;
     skipTag := false; currentSkipTag := None; depth := depth c;
     bodyTagFound := bodyTagFound c;
     outputBeforeBodyTag := outputBeforeBodyTag c;
     bodyAttributes := bodyAttributes c |}.

Definition enterBody (attributes : list (string * string)) (c : Context)
  : Context :=
  {| output := output c; stack := stack c; inBodyTag := true;
     skipTag := skipTag c; currentSkipTag := currentSkipTag c;
     depth := depth c; bodyTagFound := true;
     outputBeforeBodyTag := outputBeforeBodyTag c;
     bodyAttributes := Some attributes |}.

Definition leaveBody (c : Context) : Context :=
  {| output := output c; stack := stack c; inBodyTag := false;
     skipTag := skipTag c; currentSkipTag := currentSkipTag c;
     depth := depth c; bodyTagFound := bodyTagFound c;
     outputBeforeBodyTag := outputBeforeBodyTag c;
     bodyAttributes := bodyAttributes c |}.

Definition emitBeforeBody (s : string) (c : Context) : Context :=
  {| output := output c; stack := stack c; inBodyTag := inBodyTag c;
     skipTag := skipTag c; currentSkipTag := currentSkipTag c;
     depth := depth c; bodyTagFound := bodyTagFound c;
     outputBeforeBodyTag := outputBeforeBodyTag c +:+ s;
     bodyAttributes := bodyAttributes c |}.

Definition emit (s : string) (c : Context) : Context :=
  {| output := output c +:+ s; stack := stack c; inBodyTag := inBodyTag c;
     skipTag := skipTag c; currentSkipTag := currentSkipTag c;
     depth := depth c; bodyTagFound := bodyTagFound c;
     outputBeforeBodyTag := outputBeforeBodyTag c;
     bodyAttributes := bodyAttributes c |}.

Definition setStack (st : list (string * bool)) (c : Context) : Context :=
  {| output := output c; stack := st; inBodyTag := inBodyTag c;
     skipTag := skipTag c; currentSkipTag := currentSkipTag c;
     depth := depth c; bodyTagFound := bodyTagFound c;
     outputBeforeBodyTag := outputBeforeBodyTag c;
     bodyAttributes := bodyAttributes c |}.

(** [attributes.src] when it is truthy. *)
Definition truthySrc (attributes : list (string * string)) : option string :=
  match objGet "src" attributes with
  | Some v => if truthy v then Some v else None
  | None => None
  end.

Section Callbacks.

Variable json : string → option string.

(** The text of an opening tag (lines 536-537 and 543-544). *)
Definition openingTag (tagName : string) (attributes : list (string * string))
  : M string :=
  let isSelfClosing := has tagName selfClosingTags in
  converted ← convertAttributes json attributes;
  mret ("<" +:+ tagName +:+ converted
        +:+ (if isSelfClosing then " />" else ">")).

(** [onopentag] *)
Definition onopentag (name : string) (attributes : list (string * string))
    (c : Context) : M Context :=
  let tagName := tagNameOf name in
  attributes ← match truthySrc attributes with
               | Some src =>
                   if bool_decide (tagName = "img") then
                     fixed ← fixHtmlImagePath src;
                     mret (objSet "src" fixed attributes)
                   else mret attributes
               | None => mret attributes
               end;
  if has tagName skipTags then mret (startSkipping tagName c)
  else if skipTag c then mret (setDepth (depth c + 1) c)
  else if bool_decide (tagName = "body") then mret (enterBody attributes c)
  else if bool_decide (tagName = "style") then mret (startSkipping tagName c)
  else if negb (inBodyTag c) then
    tag ← openingTag tagName attributes;
    mret (emitBeforeBody tag c)
  else
    tag ← openingTag tagName attributes;
    mret (setStack ((tagName, has tagName selfClosingTags) :: stack c)
            (emit tag c)).

(** [ontext] *)
Definition ontext (text : string) (c : Context) : Context :=
  if inBodyTag c && negb (skipTag c) && truthy (trim text)
  then emit (escapeJSXText text) c
  else if negb (inBodyTag c) && negb (skipTag c) && truthy (trim text)
  then emitBeforeBody (escapeJSXText text) c
  else c.

(** [onclosetag] *)
Definition onclosetag (tagname : string) (c : Context) : Context :=
  let tag := tagNameOf tagname in
  if skipTag c && bool_decide (Some tag = currentSkipTag c) then
    let c := setDepth (depth c - 1) c in
    if bool_decide (depth c = 0%Z) then stopSkipping c else c
  else if skipTag c then setDepth (depth c - 1) c
  else if bool_decide (tag = "body") then leaveBody c
  else if negb (inBodyTag c) then emitBeforeBody ("</" +:+ tag +:+ ">") c
  else
    match stack c with
    | [] => c
    | (_, true) :: rest => setStack rest c
    | (_, false) :: rest => emit ("</" +:+ tag +:+ ">") (setStack rest c)
    end.

(** The callback the tokenizer makes for one event. *)
Definition handle (c : Context) (e : event) : M Context :=
  match e with
  | OpenTag name attributes => onopentag name attributes c
  | Text text => mret (ontext text c)
  | CloseTag tagname => mret (onclosetag tagname c)
  | Comment _ => mret c
  end.

(** [parser.write(html); parser.end()] *)
Definition parse (events : list event) : M Context :=
  foldM handle initialContext events.

End Callbacks.

(** The loop that closes what is left on the stack (lines 612-621): the
    closing tags it appends. *)
Fixpoint closeUnclosed (st : list (string * bool)) : string :=
  match st with
  | [] => ""
  | (tag, _) :: rest =>
      (if negb (bool_decide (tag = "body")) && negb (bool_decide (tag = "html"))
       then "</" +:+ tag +:+ ">" else "")
      +:+ closeUnclosed rest
  end.

(** ** The clean-up pass over the output (lines 631-662) *)

Inductive jsError :=
| ReferenceError (name : string).

(** How an evaluation ends: with a value, or with an exception thrown. *)
Inductive completion (A : Type) :=
| Normal (a : A)
| Throw (e : jsError).
Arguments Normal {A} a.
Arguments Throw {A} e.

Definition completion_bind {A B} (m : completion A) (f : A → completion B)
  : completion B :=
  match m with
  | Normal a => f a
  | Throw e => Throw e
  end.

Module Regex.

(** The longest prefix of characters that satisfy [p], and the rest. *)
Fixpoint span (p : ascii → bool) (s : string) : string * string :=
  match s with
  | "" => ("", "")
  | String c s' =>
      if p c then let '(a, b) := span p s' in (String c a, b)
      else ("", s)
  end.

(** A run of characters other than the double quote, then a double
    quote: the run and what follows that quote. *)
Fixpoint untilQuote (s : string) : option (string * string) :=
  match s with
  | "" => None
  | String c s' =>
      if bool_decide (c = ascii_of_nat 34) then Some ("", s')
      else '(v, rest) ← untilQuote s'; Some (String c v, rest)
  end.

(** [s] without the prefix [p], when [p] is a prefix of it. *)
Definition afterPrefix (p s : string) : option string :=
  if startsWith p s then Some (drop (String.length p) s) else None.

Fixpoint take (n : nat) (s : string) : string :=
  match n, s with
  | S n', String c s' => String c (take n' s')
  | _, _ => ""
  end.

(** [s.replace(re, f)] for a global pattern that matches no empty string:
    [matchAt s] is the match that starts at the first character of [s],
    as the text [f] returns for it and its length.  [skip] counts the
    characters of the last match still to pass over. *)
Fixpoint replaceAll (matchAt : string → option (completion string * nat))
    (skip : nat) (s : string) : completion string :=
  match s with
  | "" => Normal ""
  | String c s' =>
      match skip with
      | S k => replaceAll matchAt k s'
      | O =>
          match matchAt s with
          | Some (replacement, len) =>
              completion_bind replacement (λ r,
              completion_bind (replaceAll matchAt (len - 1) s') (λ rest,
              Normal (r +:+ rest)))
          | None =>
              completion_bind (replaceAll matchAt 0 s') (λ rest,
              Normal (String c rest))
          end
      end
  end.

(** The first pattern of the chain (line 638) and its callback: the
    letters o and n in either case, one letter or more, an equals sign
    and a quoted value. *)
Definition eventHandlerAt (s : string) : option (completion string * nat) :=
  match s with
  | String o (String n s2) =>
      if bool_decide (lowerChar o = "o"%char)
         && bool_decide (lowerChar n = "n"%char) then
        let '(event, r) := span isLetter s2 in
        if truthy event then
          r' ← afterPrefix ("=" +:+ dq) r;
          '(handler, _) ← untilQuote r';
          let jsxEvent :=
            "on" +:+ toUpperCase (charAt0 event) +:+ slice1 event in
          Some (Normal (jsxEvent +:+ "={() => { " +:+ handler +:+ " }}"),
                2 + String.length event + 2 + String.length handler + 1)
        else None
      else None
  | _ => None
  end.

(** The greedy split of [([a-z-]+)-([a-z-]+)] inside a run of letters and
    hyphens: the last hyphen that leaves a suffix.  [lastSplit] allows an
    empty prefix, [splitRun] does not. *)
Fixpoint lastSplit (run : string) : option (string * string) :=
  match run with
  | "" => None
  | String c run' =>
      match lastSplit run' with
      | Some (p, q) => Some (String c p, q)
      | None =>
          if bool_decide (c = "-"%char) && truthy run'
          then Some ("", run') else None
      end
  end.

Definition splitRun (run : string) : option (string * string) :=
  match run with
  | "" => None
  | String c run' => '(p, q) ← lastSplit run'; Some (String c p, q)
  end.

Definition isNameChar (c : ascii) : bool :=
  isLetter c || bool_decide (c = "-"%char).

(** The second pattern of the chain (line 643) and its callback: a
    white space, a hyphenated name, an equals sign and a quoted value.
    For the prefix [data] the callback returns the variable [match],
    which nothing declares. *)
Definition hyphenatedAt (s : string) : option (completion string * nat) :=
  match s with
  | String w s1 =>
      if isSpace w then
        let '(run, r) := span isNameChar s1 in
        '(prefix, suffix) ← splitRun run;
        r' ← afterPrefix ("=" +:+ dq) r;
        '(value, _) ← untilQuote r';
        let len := 1 + String.length run + 2 + String.length value + 1 in
        if bool_decide (prefix = "data")
        then Some (Throw (ReferenceError "match"), len)
        else
          let camelCaseName :=
            prefix +:+ toUpperCase (charAt0 suffix) +:+ slice1 suffix in
          Some (Normal (" " +:+ camelCaseName +:+ "=" +:+ dq +:+ value +:+ dq),
                len)
      else None
  | "" => None
  end.

(** The third pattern of the chain (line 651): a white space and the
    name [class], up to the opening quote of its value. *)
Definition classAt (s : string) : option (completion string * nat) :=
  match s with
  | String w s1 =>
      if isSpace w && startsWith ("class=" +:+ dq) s1
      then Some (Normal (" className=" +:+ dq), 8)
      else None
  | "" => None
  end.

(** An alternation of literal words under the [i] flag, followed by
    [next]: the first word that matches and lets [next] match. *)
Fixpoint firstWord {A} (words : list string) (s : string)
    (next : string → string → option A) : option A :=
  match words with
  | [] => None
  | w :: words' =>
      let n := String.length w in
      if bool_decide (toLowerCase (take n s) = w) then
        match next (take n s) (drop n s) with
        | Some a => Some a
        | None => firstWord words' s next
        end
      else firstWord words' s next
  end.

(** [booleanAttrsRegex] and its callback. *)
Definition booleanAt (s : string) : option (completion string * nat) :=
  match s with
  | String w s1 =>
      if isSpace w then
        firstWord booleanAttributes s1 (λ attr r,
          r' ← afterPrefix ("=" +:+ dq) r;
          firstWord ["true"; "false"] r' (λ value r'',
            _ ← afterPrefix dq r'';
            let jsxAttr :=
              match renameLookup (toLowerCase attr) with
              | Some renamed => renamed
              | None => if includes "-" attr then camelCase attr else attr
              end in
            Some (Normal (" " +:+ jsxAttr +:+ "={" +:+ toLowerCase value
                          +:+ "}"),
                  1 + String.length attr + 2 + String.length value + 1)))
      else None
  | "" => None
  end.

End Regex.

(** The four replacements, in the order of the chain. *)
Definition cleanUp (output : string) : completion string :=
  completion_bind (Regex.replaceAll Regex.eventHandlerAt 0 output) (λ o1,
  completion_bind (Regex.replaceAll Regex.hyphenatedAt 0 o1) (λ o2,
  completion_bind (Regex.replaceAll Regex.classAt 0 o2) (λ o3,
  Regex.replaceAll Regex.booleanAt 0 o3))).

(** ** The conversion *)

Section Conversion.

Variable json : string → option string.

(** What is in [output] when the clean-up pass starts (lines 611-629). *)
Definition collected (c : Context) : string :=
  let output := output c +:+ closeUnclosed (stack c) in
  if negb (bodyTagFound c) && truthy (outputBeforeBodyTag c)
  then outputBeforeBodyTag c else output.

(** [convertHTMLtoJSX], on the callbacks the tokenizer makes for [html]. *)
Definition convertHTMLtoJSX (events : list event) : M (completion string) :=
  resetImageImports;;
  c ← parse json events;
  match cleanUp (collected c) with
  | Throw e => mret (Throw e)
  | Normal output =>
      match bodyAttributes c with
      | Some attributes =>
          wrapperAttributes ← convertAttributes json attributes;
          mret (Normal ("<div" +:+ wrapperAttributes +:+ ">" +:+ output
                        +:+ "</div>"))
      | None => mret (Normal ("<>" +:+ output +:+ "</>"))
      end
  end.

End Conversion.

(** ** Notions the properties are stated with *)

(** The answer of [JSON.parse] on a value that is not JSON text: it
    throws.  The closed examples below run the converter with attribute
    values of that kind only, so this is the host's answer on each of
    them. *)
Definition notJSON : string → option string := λ _, None.


(** The text emitted for the value of a boolean attribute: a value shaped
    like an expression as it stands, the attribute's own name and the
    words true and false (in any case) as a boolean expression, anything
    else as a quoted string. *)
Definition booleanExpression (key value : string) : string :=
  if startsWith "{" value && endsWith "}" value then value
  else if bool_decide (value = toLowerCase key) then "{true}"
  else if bool_decide (toLowerCase value = "true") then "{true}"
  else if bool_decide (toLowerCase value = "false") then "{false}"
  else dq +:+ value +:+ dq.

(** Every hyphen of [s] stands before a lower-case letter. *)
Fixpoint hyphensBeforeLetters (s : string) : bool :=
  match s with
  | "" => true
  | String c s' =>
      (if bool_decide (c = "-"%char)
       then match s' with String d _ => isLower d | "" => false end
       else true)
      && hyphensBeforeLetters s'
  end.

(** What decides whether an event is discarded: the flag [skipTag], the
    name [currentSkipTag] and the counter [depth]. *)
Definition SkipState : Type := bool * option string * Z.

Definition skipView (c : Context) : SkipState :=
  (skipTag c, currentSkipTag c, depth c).

(** Nothing is being discarded: the state a call starts in. *)
Definition idle : SkipState := (false, None, 0%Z).

(** How one event moves the discarding state, whatever else it does. *)
Definition skipStep (s : SkipState) (e : event) : SkipState :=
  let '(skipping, name, d) := s in
  match e with
  | OpenTag n _ =>
      let t := tagNameOf n in
      if has t skipTags then (true, Some t, 1%Z)
      else if skipping then (skipping, name, (d + 1)%Z)
      else if bool_decide (t = "body") then s
      else if bool_decide (t = "style") then (true, Some t, 1%Z)
      else s
  | CloseTag n =>
      let t := tagNameOf n in
      if skipping && bool_decide (Some t = name) then
        if bool_decide ((d - 1)%Z = 0%Z) then (false, None, (d - 1)%Z)
        else (skipping, name, (d - 1)%Z)
      else if skipping then (skipping, name, (d - 1)%Z)
      else s
  | Text _ | Comment _ => s
  end.

(** The attributes of a body tag that is opened while nothing is being
    discarded. *)
Definition bodyOpened (s : SkipState) (e : event)
  : option (list (string * string)) :=
  match e with
  | OpenTag n attributes =>
      let t := tagNameOf n in
      if negb (has t skipTags) && negb s.1.1 && bool_decide (t = "body")
      then Some attributes else None
  | _ => None
  end.

(** The attributes of the last body tag of [events] that is opened while
    nothing is being discarded, if there is one. *)
Fixpoint bodyCapturedFrom (s : SkipState)
    (captured : option (list (string * string))) (events : list event)
  : option (list (string * string)) :=
  match events with
  | [] => captured
  | e :: events' =>
      bodyCapturedFrom (skipStep s e)
        (match bodyOpened s e with Some a => Some a | None => captured end)
        events'
  end.

Definition bodyCaptured (events : list event)
  : option (list (string * string)) :=
  bodyCapturedFrom idle None events.

(** Two states of the module that differ at most in the image import
    table. *)
Definition sameButImages (g1 g2 : Globals) : Prop :=
  customClassCounter g1 = customClassCounter g2
  ∧ cssVarMap g1 = cssVarMap g2
  ∧ sanitizedFilenameMap g1 = sanitizedFilenameMap g2.

(** A computation that never reads the image import table: from two such
    states it returns the same value and ends in two such states. *)
Definition imagesBlind {A} (m : M A) : Prop :=
  ∀ g1 g2, sameButImages g1 g2 →
    (m g1).1 = (m g2).1 ∧ sameButImages (m g1).2 (m g2).2.

(** The tags that start the discarding of their subtree when nothing is
    being discarded. *)
Definition discardTrigger (t : string) : bool :=
  has t skipTags || bool_decide (t = "style").

(** The content of a discarded element: [d] counts the elements of the
    content that are open.  Every close callback closes an element of the
    content, all of them are closed at the end, and no open tag is one of
    [skipTags]. *)
Fixpoint innerBalanced (d : nat) (events : list event) : bool :=
  match events with
  | [] => bool_decide (d = 0)
  | OpenTag n _ :: events' =>
      negb (has (tagNameOf n) skipTags) && innerBalanced (S d) events'
  | CloseTag _ :: events' =>
      match d with
      | S d' => innerBalanced d' events'
      | O => false
      end
  | (Text _ | Comment _) :: events' => innerBalanced d events'
  end.

(** Whether a subtree is being discarded once [events] have been read. *)
Definition discarding (events : list event) : bool :=
  (foldl skipStep idle events).1.1.

(** A relation between the state before and the state after that a
    computation keeps. *)
Definition preserves (R : Globals → Globals → Prop) {A} (m : M A) : Prop :=
  ∀ g, R g (m g).2.




(** No match of [matchAt] starts inside [p] when [x] follows it. *)
Fixpoint quiet (matchAt : string → option (completion string * nat))
    (p x : string) : Prop :=
  match p with
  | "" => True
  | String c p' => matchAt (String c (p' +:+ x)) = None ∧ quiet matchAt p' x
  end.

(** The callbacks for [<div style=%--x:1px%>Hi</div>], with [%] for the
    double quote. *)
Definition customPropertyDocument : list event :=
  [ OpenTag "div" [ ("style", "--x:1px") ]; Text "Hi"; CloseTag "div" ].


(** The state of the module after the conversion of
    [customPropertyDocument] has minted the class number [n]. *)
Definition minted (n : nat) (g : Globals) : Globals :=
  {| customClassCounter := n;
     cssVarMap :=
       objSet ("custom-var-" +:+ pretty n) [ ("--x", "1px") ] (cssVarMap g);
     imageImportsMap := [];
     sanitizedFilenameMap := sanitizedFilenameMap g |}.

(** A source that [fixHtmlImagePath] looks up: not empty, and neither a
    data URL nor an absolute http(s) URL. *)
Definition isLocalPath (src : string) : bool :=
  truthy src
  && negb (startsWith "data:" src || startsWith "http://" src
           || startsWith "https://" src).

(** The sanitized filename the map gives for [src]: the entry under [src]
    itself or, for a [src] that starts with a slash, the entry under [src]
    without that slash. *)
Definition mappedFilename (g : Globals) (src : string) : option string :=
  match (sanitizedLookup src g).1 with
  | Some filename => Some filename
  | None =>
      if startsWith "/" src then (sanitizedLookup (drop 1 src) g).1 else None
  end.

(** The import statement of one entry of the table. *)
Definition importLine (entry : string * string) : string :=
  "import " +:+ entry.2 +:+ " from './images-flat/" +:+ entry.1 +:+ "';".


(** The state of the module once [filename] has been registered. *)
Definition registered (filename : string) (g : Globals) : Globals :=
  (registerImage filename (generateImageImportName filename) g).2.




(** An open callback for a body tag. *)
Definition isBodyTag (e : event) : bool :=
  match e with
  | OpenTag n _ => bool_decide (tagNameOf n = "body")
  | _ => false
  end.

(** The image import table keeps its filenames apart. *)
Definition tableNoDup (g g' : Globals) : Prop :=
  NoDup (imageImportsMap g).*1 → NoDup (imageImportsMap g').*1.

(** How [escapeJSXText] writes one character. *)
Definition escapeChar (c : ascii) : string :=
  if bool_decide (c = "&"%char) then "&amp;"
  else if bool_decide (c = "<"%char) then "&lt;"
  else if bool_decide (c = ">"%char) then "&gt;"
  else String c "".

(** An equals sign followed by a double quote: the two characters every
    pattern of the clean-up pass holds. *)
Definition eqQuote : string := "=" +:+ dq.

(** Well-nested markup: what the tokenizer reads between the callbacks of
    a document. *)
Unset Elimination Schemes.
Set Elimination Schemes.




Section Markup.

Variable json : string → option string.
Variable inBody : bool.



End Markup.





(** The name of the custom class number [n]. *)
Definition customClassName (n : nat) : string := "custom-var-" +:+ pretty n.

(** The table of custom properties holds the classes number 1 to
    [customClassCounter], one entry each, in that order. *)
Definition wellNumbered (g : Globals) : Prop :=
  (cssVarMap g).*1 = customClassName <$> seq 1 (customClassCounter g).

(** From a well-numbered table, a well-numbered table that holds the
    entries of the first, as they were, followed by one new entry for
    each step of the counter. *)
Definition tableGrows (g g' : Globals) : Prop :=
  wellNumbered g →
  wellNumbered g'
  ∧ ∃ added, cssVarMap g' = cssVarMap g ++ added
             ∧ customClassCounter g' = customClassCounter g + List.length added.

(** The text between the blocks of the generated style sheet: an empty
    line when there is a block on either side. *)
Definition blockSeparator {A} (before after : list A) : string :=
  match before, after with
  | _ :: _, _ :: _ => lf +:+ lf
  | _, _ => ""
  end.

(** Every entry of the image import table is an image file under the
    import name [generateImageImportName] gives it. *)
Definition tableSound (g : Globals) : Prop :=
  Forall (λ entry, testImageExt entry.1 = true
                   ∧ entry.2 = generateImageImportName entry.1)
    (imageImportsMap g).

Definition keepsSound (g g' : Globals) : Prop := tableSound g → tableSound g'.

(** The attribute names that work on the class of the element: the class
    itself, and the style, which may add a custom class. *)
Definition classOrStyle (key : string) : bool :=
  let keyLower := toLowerCase key in
  bool_decide (keyLower = "class") || bool_decide (keyLower = "classname")
  || bool_decide (keyLower = "style").



(** An attribute that takes the last branch of [convertAttributes]: its
    name is not a class, a style, a data attribute, [src] or a boolean
    attribute, and its value is neither passed over nor shaped like an
    expression in braces. *)
Definition ordinary (entry : string * string) : bool :=
  let '(key, value) := entry in
  let keyLower := toLowerCase key in
  negb (classOrStyle key) && negb (startsWith "data-" keyLower)
  && negb (bool_decide (keyLower = "src"))
  && negb (has keyLower booleanAttributes)
  && negb (skippedValue value)
  && negb (startsWith "{" value && endsWith "}" value).

(** The value of an attribute with every double quote written as the
    entity. *)
Definition escapeQuotes (value : string) : string :=
  replaceChar (ascii_of_nat 34) "&quot;" value.

(** The text of an ordinary attribute: a space, the JSX name, and the
    escaped value between double quotes. *)
Definition quotedAttribute (entry : string * string) : string :=
  " " +:+ jsxKeyOf entry.1 +:+ "=" +:+ dq +:+ escapeQuotes entry.2 +:+ dq.

(** Strings put one after the other. *)
Fixpoint concatAll (l : list string) : string :=
  match l with
  | [] => ""
  | s :: l' => s +:+ concatAll l'
  end.

Fixpoint allLetters (s : string) : bool :=
  match s with
  | "" => true
  | String c s' => isLetter c && allLetters s'
  end.

(** The JSX name of the handler of [event]: [on], the first letter of the
    event in upper case and its other letters in lower case. *)
Definition jsxEventName (event : string) : string :=
  "on" +:+ toUpperCase (charAt0 (toLowerCase event))
  +:+ slice1 (toLowerCase event).

(** No character of [s] is the letter o, in either case. *)
Fixpoint withoutO (s : string) : bool :=
  match s with
  | "" => true
  | String c s' => negb (bool_decide (lowerChar c = "o"%char)) && withoutO s'
  end.

(** No character of [s] ends a line. *)
Fixpoint oneLine (s : string) : bool :=
  match s with
  | "" => true
  | String c s' => negb (isLineTerminator c) && oneLine s'
  end.

(** A word with its first character in upper case. *)
Definition capitalise (s : string) : string :=
  toUpperCase (charAt0 s) +:+ slice1 s.

(** * Properties *)

(** ** Closed runs of the converter *)

(** C2, failing input: the text node [see data-x=%1%] (with [%] for the
    double quote) inside a paragraph.  The second pattern of the clean-up
    pass matches it with the prefix [data], its callback reads the
    undeclared variable [match], and the call ends in a ReferenceError
    instead of returning a string. *)
Theorem convertHTMLtoJSX_throws_on_data_text json :
  (convertHTMLtoJSX json
     [ OpenTag "p" [];
       Text ("see data-x=" +:+ dq +:+ "1" +:+ dq);
       CloseTag "p" ]
     freshGlobals).1
  = Throw (ReferenceError "match").
Proof. vm_compute. reflexivity. Qed.

(** C6, failing input: the document [<br>] alone against the same element
    inside a body.  Without a body the close callback of the void element
    is written out, so the content is not converted as it is inside a
    body. *)
Theorem convertHTMLtoJSX_void_element_without_body json :
  (convertHTMLtoJSX json [ OpenTag "br" []; CloseTag "br" ] freshGlobals).1
  = Normal "<><br /></br></>"
  ∧ (convertHTMLtoJSX json
       [ OpenTag "body" []; OpenTag "br" []; CloseTag "br"; CloseTag "body" ]
       freshGlobals).1
    = Normal "<div><br /></div>".
Proof. split; vm_compute; reflexivity. Qed.

(** C7, failing input: a tag whose [style] attribute (with the custom
    property [--x]) comes before its [class] attribute.  The class read
    later overwrites the minted class: the only [className] emitted is [a],
    while the table still receives [custom-var-1]. *)
Theorem convertAttributes_class_after_style json :
  convertAttributes json [ ("style", "--x:1px"); ("class", "a") ] freshGlobals
  = (" className=" +:+ dq +:+ "a" +:+ dq,
     {| customClassCounter := 1;
        cssVarMap := [ ("custom-var-1", [ ("--x", "1px") ]) ];
        imageImportsMap := [];
        sanitizedFilenameMap := ∅ |}).
Proof. vm_compute. reflexivity. Qed.

(** ** Boolean attributes *)

Lemma truthy_true s : s ≠ "" → truthy s = true.
Proof. intros H. unfold truthy. by rewrite bool_decide_eq_false_2. Qed.

Lemma toLowerCase_empty s : toLowerCase s = "" → s = "".
Proof. by destruct s. Qed.

(** No boolean attribute is one of the names [convertAttribute] treats
    apart. *)
Lemma boolean_names_ordinary kl :
  has kl booleanAttributes = true →
  bool_decide (kl = "class") = false ∧ bool_decide (kl = "classname") = false
  ∧ bool_decide (kl = "style") = false
  ∧ bool_decide (kl = "data-props") = false
  ∧ startsWith "data-" kl = false ∧ bool_decide (kl = "src") = false.
Proof.
  intros H. apply bool_decide_eq_true in H. revert kl H.
  apply Forall_forall. unfold booleanAttributes.
  repeat (constructor; [by repeat split|]). constructor.
Qed.

Lemma not_skipped_literal value :
  value ≠ "{}" → value ≠ "[]" → value ≠ "null" →
  bool_decide (value ∈ ["{}"; "[]"; "null"]) = false.
Proof.
  intros ???. apply bool_decide_eq_false_2. intros Hin.
  repeat (apply elem_of_cons in Hin as [?|Hin]; [done|]).
  by apply elem_of_nil in Hin.
Qed.

(** C3, amended.  An attribute of the boolean set with a value that is not
    empty: the values [{}], [[]] and [null] emit nothing; a value that
    starts and ends with a brace is emitted as it stands; the attribute's
    own name and the words true and false in any case give [{true}] or
    [{false}]; any other value is emitted between double quotes. *)
Theorem boolean_attribute_emission json key value jsx existingClass g :
  has (toLowerCase key) booleanAttributes = true →
  value ≠ "" →
  convertAttribute json (jsx, existingClass) (key, value) g
  = if bool_decide (value ∈ ["{}"; "[]"; "null"])
    then ((jsx, existingClass), g)
    else ((jsx +:+ " " +:+ jsxKeyOf key +:+ "=" +:+ booleanExpression key value,
           existingClass), g).
Proof.
  intros Hb Hv.
  destruct (boolean_names_ordinary _ Hb) as (Hc & Hcn & Hs & Hdp & Hd & Hsrc).
  unfold convertAttribute, skippedValue.
  rewrite truthy_true, (bool_decide_eq_false_2 (value = "")) by done.
  rewrite Hc, Hcn, Hs, Hdp, Hd, Hsrc. cbn [negb orb].
  destruct (decide (value = "{}")) as [->|n1]; [done|].
  destruct (decide (value = "[]")) as [->|n2]; [done|].
  destruct (decide (value = "null")) as [->|n3]; [done|].
  rewrite (bool_decide_eq_false_2 (value = "{}")) by done.
  rewrite (bool_decide_eq_false_2 (value = "[]")) by done.
  rewrite (bool_decide_eq_false_2 (value = "null")) by done.
  rewrite not_skipped_literal by done.
  cbn [orb]. unfold mbind, M_bind, mret, M_ret. rewrite Hb.
  unfold booleanExpression.
  destruct (startsWith "{" value && endsWith "}" value); [done|].
  destruct (bool_decide (value = toLowerCase key)); [done|].
  unfold isBooleanValue.
  destruct (decide (value = "false")) as [->|n4]; [done|].
  rewrite (bool_decide_eq_false_2 (value = "false")) by done.
  rewrite (bool_decide_eq_false_2 (toLowerCase value = "")).
  2:{ intros E. by apply toLowerCase_empty in E. }
  rewrite orb_false_r.
  destruct (decide (toLowerCase value = "true")) as [e|n5].
  - by rewrite e.
  - rewrite (bool_decide_eq_false_2 (toLowerCase value = "true")) by done.
    cbn [orb].
    destruct (decide (toLowerCase value = "false")) as [e|n6].
    + by rewrite e.
    + by rewrite (bool_decide_eq_false_2 (toLowerCase value = "false")).
Qed.

(** The witness of [boolean_attribute_emission]: [disabled] with the value
    [false]. *)
Lemma boolean_attribute_emission_witness :
  has (toLowerCase "disabled") booleanAttributes = true
  ∧ "false" ≠ ""
  ∧ convertAttribute notJSON ("", None) ("disabled", "false") freshGlobals
    = ((" disabled={false}", None), freshGlobals).
Proof.
  assert ("false" ≠ "") as Hne by discriminate.
  exact (conj eq_refl (conj Hne
           (boolean_attribute_emission notJSON "disabled" "false" "" None
              freshGlobals eq_refl Hne))).
Defined.

(** C3 as stated fails where the code passes over a value or emits it as
    an expression: [disabled] with the value [null] emits nothing, and with
    the value [{x}] it emits [disabled={x}]; neither is a quoted string. *)
Lemma boolean_attribute_counterexample :
  convertAttributes notJSON [ ("disabled", "null") ] freshGlobals
  = ("", freshGlobals)
  ∧ convertAttributes notJSON [ ("disabled", "{x}") ] freshGlobals
    = (" disabled={x}", freshGlobals).
Proof. split; vm_compute; reflexivity. Qed.

(** ** Data attributes *)

Lemma startsWith_data kl :
  startsWith "data-" kl = true → ∃ rest, kl = "data-" +:+ rest.
Proof.
  intros H.
  do 5 (destruct kl as [|? kl]; [discriminate|]; cbn in H;
        apply andb_prop in H as [E H]; apply bool_decide_eq_true in E; subst).
  by exists kl.
Qed.

(** The rename table has no entry for a name that starts with [data-]. *)
Lemma renameLookup_data rest : renameLookup ("data-" +:+ rest) = None.
Proof. vm_compute. reflexivity. Qed.

Lemma jsxKeyOf_data key :
  startsWith "data-" (toLowerCase key) = true →
  includes ":" key = false →
  jsxKeyOf key = camelCase (toLowerCase key).
Proof.
  intros Hd Hc. unfold jsxKeyOf. rewrite Hc.
  destruct (startsWith_data _ Hd) as [rest ->].
  by rewrite renameLookup_data.
Qed.

Lemma upperChar_not_hyphen d : isLower d = true → upperChar d ≠ "-"%char.
Proof.
  destruct d as [[] [] [] [] [] [] [] []]; vm_compute; congruence.
Qed.

Lemma camelCase_cons2 c d s :
  camelCase (String c (String d s))
  = if bool_decide (c = "-"%char) && isLower d
    then String (upperChar d) (camelCase s)
    else String c (camelCase (String d s)).
Proof. reflexivity. Qed.

Lemma includes_hyphen_cons c s :
  includes "-" (String c s) = bool_decide ("-"%char = c) || includes "-" s.
Proof. cbn [includes startsWith]. by rewrite andb_true_r. Qed.

(** When every hyphen stands before a lower-case letter, the camel-cased
    name has no hyphen left.  [camelCase] passes over two characters at a
    match, hence the induction on a bound of the length. *)
Lemma camelCase_no_hyphen s :
  hyphensBeforeLetters s = true → includes "-" (camelCase s) = false.
Proof.
  assert (∀ n s, String.length s ≤ n → hyphensBeforeLetters s = true →
                 includes "-" (camelCase s) = false) as G.
  2:{ by apply (G (String.length s)). }
  clear s. induction n as [|n IH]; intros s Hn Hs.
  - destruct s; [done|simpl in Hn; lia].
  - destruct s as [|c [|d s'']]; [done|..].
    + cbn in Hs |- *. destruct (decide (c = "-"%char)) as [->|Hc]; [done|].
      by rewrite (bool_decide_eq_false_2 ("-"%char = c)).
    + cbn [hyphensBeforeLetters] in Hs. rewrite camelCase_cons2.
      apply andb_prop in Hs as [Hc Hs].
      destruct (decide (c = "-"%char)) as [->|Hne].
      * rewrite bool_decide_eq_true_2 in Hc |- * by done.
        rewrite Hc. cbn [andb].
        apply andb_prop in Hs as [_ Hs].
        rewrite includes_hyphen_cons.
        rewrite (bool_decide_eq_false_2 (_ = upperChar d)).
        2:{ intros E'. by eapply upperChar_not_hyphen. }
        cbn [orb]. apply IH; [simpl in Hn; lia|done].
      * rewrite (bool_decide_eq_false_2 (c = "-"%char)) by done.
        cbn [andb]. rewrite includes_hyphen_cons.
        rewrite (bool_decide_eq_false_2 ("-"%char = c)) by done.
        cbn [orb]. apply IH; [simpl in Hn |- *; lia|done].
Qed.

(** C9, amended.  An attribute whose lower-cased name starts with [data-],
    whose name has no colon and whose value is none of the empty string,
    [{}], [[]] and [null]: the name emitted is the lower-cased name with
    every hyphen that stands before a lower-case letter removed and that
    letter in upper case; the value is the host's JSON round trip of it, or
    the value itself when it is not JSON, with its double quotes escaped.
    When every hyphen of the name stands before a lower-case letter, no
    hyphen is left in the name emitted. *)
Theorem data_attribute_emission json key value jsx existingClass g :
  startsWith "data-" (toLowerCase key) = true →
  includes ":" key = false →
  skippedValue value = false →
  convertAttribute json (jsx, existingClass) (key, value) g
  = ((jsx +:+ " " +:+ camelCase (toLowerCase key) +:+ "=" +:+ dq
      +:+ replaceChar (ascii_of_nat 34) "&quot;" (default value (json value))
      +:+ dq, existingClass), g)
  ∧ (hyphensBeforeLetters (toLowerCase key) = true →
     includes "-" (camelCase (toLowerCase key)) = false).
Proof.
  intros Hd Hc Hv. split; [|apply camelCase_no_hyphen].
  unfold convertAttribute. rewrite Hv, jsxKeyOf_data by done.
  destruct (startsWith_data _ Hd) as [rest E]. rewrite E.
  rewrite (bool_decide_eq_false_2 (_ = "class")) by done.
  rewrite (bool_decide_eq_false_2 (_ = "classname")) by done.
  rewrite (bool_decide_eq_false_2 (_ = "style")) by done.
  cbn [orb].
  replace (startsWith "data-" ("data-" +:+ rest)) with true by done.
  rewrite orb_true_r. by destruct (json value).
Qed.

(** The witness of [data_attribute_emission]: [data-props] with a value
    that is not JSON. *)
Lemma data_attribute_emission_witness :
  startsWith "data-" (toLowerCase "data-props") = true
  ∧ includes ":" "data-props" = false
  ∧ skippedValue "hello" = false
  ∧ convertAttribute notJSON ("", None) ("data-props", "hello") freshGlobals
    = ((" dataProps=" +:+ dq +:+ "hello" +:+ dq, None), freshGlobals)
  ∧ includes "-" (camelCase (toLowerCase "data-props")) = false.
Proof.
  destruct (data_attribute_emission notJSON "data-props" "hello" "" None
              freshGlobals eq_refl eq_refl eq_refl) as [Hemit Hname].
  exact (conj eq_refl (conj eq_refl (conj eq_refl
           (conj Hemit (Hname eq_refl))))).
Defined.

(** C9 as stated fails in three ways: [data-1] keeps its hyphen, since no
    letter follows it; [data-x] with the value [null] emits nothing; and
    [data-a:b], read as a namespaced name, is emitted as [data-aB]. *)
Lemma data_attribute_counterexample :
  convertAttributes notJSON [ ("data-1", "v") ] freshGlobals
  = (" data-1=" +:+ dq +:+ "v" +:+ dq, freshGlobals)
  ∧ convertAttributes notJSON [ ("data-x", "null") ] freshGlobals
    = ("", freshGlobals)
  ∧ convertAttributes notJSON [ ("data-a:b", "v") ] freshGlobals
    = (" data-aB=" +:+ dq +:+ "v" +:+ dq, freshGlobals).
Proof. repeat split; vm_compute; reflexivity. Qed.

(** ** The discarding state and the body tag *)

(** The callbacks move the discarding state as [skipStep] says, whatever
    the rest of the context and the module-level state are. *)
Lemma handle_skipView json c e g :
  skipView (handle json c e g).1 = skipStep (skipView c) e.
Proof.
  destruct e as [n a|t|n|d]; unfold handle.
  - unfold onopentag, skipView, skipStep, mbind, M_bind, mret, M_ret.
    destruct (match truthySrc a with _ => _ end g) as [a' g'] eqn:E.
    destruct (has (tagNameOf n) skipTags); [done|].
    destruct (skipTag c) eqn:Es; [by cbn; rewrite Es|].
    destruct (bool_decide (tagNameOf n = "body")); [by cbn; rewrite Es|].
    destruct (bool_decide (tagNameOf n = "style")); [done|].
    destruct (inBodyTag c); cbn [negb];
      destruct (openingTag json (tagNameOf n) a' g'); by cbn; rewrite Es.
  - unfold ontext, skipView, mret, M_ret. cbn [fst].
    by repeat case_match.
  - unfold onclosetag, skipView, skipStep, mret, M_ret. cbn [fst].
    destruct (skipTag c) eqn:Es; cbn [andb].
    + destruct (bool_decide (Some (tagNameOf n) = currentSkipTag c));
        [|by cbn; rewrite Es].
      cbn [setDepth depth].
      destruct (bool_decide (_ = 0%Z)); [done|by cbn; rewrite Es].
    + destruct (bool_decide (tagNameOf n = "body")); [by cbn; rewrite Es|].
      destruct (inBodyTag c); cbn [negb]; [|by cbn; rewrite Es].
      destruct (stack c) as [|[? []] ?]; by cbn; rewrite Es.
  - by destruct c.
Qed.

(** [bodyAttributes] changes at a body tag opened while nothing is being
    discarded, and nowhere else. *)
Lemma handle_bodyAttributes json c e g :
  bodyAttributes (handle json c e g).1
  = match bodyOpened (skipView c) e with
    | Some a => Some a
    | None => bodyAttributes c
    end.
Proof.
  destruct e as [n a|t|n|d]; unfold handle, bodyOpened.
  - unfold onopentag, skipView, mbind, M_bind, mret, M_ret. cbn [fst].
    destruct (has (tagNameOf n) skipTags) eqn:Eh; cbn [negb andb].
    { by destruct (match truthySrc a with _ => _ end g). }
    destruct (skipTag c) eqn:Es; cbn [negb andb].
    { by destruct (match truthySrc a with _ => _ end g). }
    destruct (bool_decide (tagNameOf n = "body")) eqn:Eb.
    { apply bool_decide_eq_true in Eb. rewrite Eb.
      rewrite (bool_decide_eq_false_2 ("body" = "img")) by done.
      by destruct (truthySrc a). }
    destruct (match truthySrc a with _ => _ end g) as [a' g'].
    destruct (bool_decide (tagNameOf n = "style")); [done|].
    destruct (inBodyTag c); cbn [negb];
      by destruct (openingTag json (tagNameOf n) a' g').
  - unfold ontext, mret, M_ret. cbn [fst]. by repeat case_match.
  - unfold onclosetag, mret, M_ret. cbn [fst]. by repeat case_match.
  - done.
Qed.

Lemma parse_bodyAttributes json events : ∀ c g,
  bodyAttributes (foldM (handle json) c events g).1
  = bodyCapturedFrom (skipView c) (bodyAttributes c) events.
Proof.
  induction events as [|e events IH]; intros c g; [done|].
  cbn [foldM bodyCapturedFrom]. unfold mbind, M_bind.
  pose proof (handle_skipView json c e g) as Hs.
  pose proof (handle_bodyAttributes json c e g) as Hb.
  destruct (handle json c e g) as [c' g']. cbn [fst] in Hs, Hb.
  by rewrite IH, Hs, Hb.
Qed.

(** C5, amended.  When the call returns, its result is the cleaned-up
    content inside [<div ...>] with the transformed attributes of the body
    tag exactly when a body tag is opened while nothing is being discarded,
    whether that tag has attributes or not (the last such tag counts), and
    the cleaned-up content inside a fragment otherwise. *)
Theorem wrapper_when_body_captured json events g result :
  (convertHTMLtoJSX json events g).1 = Normal result →
  ∃ inner,
    cleanUp (collected (parse json events (resetImageImports g).2).1)
    = Normal inner
    ∧ result
      = match bodyCaptured events with
        | Some attributes =>
            "<div"
            +:+ (convertAttributes json attributes
                   (parse json events (resetImageImports g).2).2).1
            +:+ ">" +:+ inner +:+ "</div>"
        | None => "<>" +:+ inner +:+ "</>"
        end.
Proof.
  intros H.
  unfold convertHTMLtoJSX, mbind, M_bind, mret, M_ret in H.
  destruct (resetImageImports g) as [[] g0]. cbn [snd].
  pose proof (parse_bodyAttributes json events initialContext g0) as Hb.
  unfold parse in *.
  destruct (foldM (handle json) initialContext events g0) as [c g1].
  cbn [fst snd] in *.
  change (bodyCapturedFrom _ _ events) with (bodyCaptured events) in Hb.
  destruct (cleanUp (collected c)) as [inner|err]; [|done].
  exists inner. split; [done|]. rewrite <- Hb.
  destruct (bodyAttributes c) as [attributes|].
  - destruct (convertAttributes json attributes g1). cbn in H. by inversion H.
  - cbn in H. by inversion H.
Qed.

(** The witness of [wrapper_when_body_captured]: the body of the
    specification's scenario, [<body class=app>] around one paragraph. *)
Lemma wrapper_when_body_captured_witness :
  (convertHTMLtoJSX notJSON
     [ OpenTag "body" [ ("class", "app") ]; OpenTag "p" []; Text "x";
       CloseTag "p"; CloseTag "body" ] freshGlobals).1
  = Normal ("<div className=" +:+ dq +:+ "app" +:+ dq +:+ "><p>x</p></div>")
  ∧ ∃ inner,
      cleanUp (collected (parse notJSON
        [ OpenTag "body" [ ("class", "app") ]; OpenTag "p" []; Text "x";
          CloseTag "p"; CloseTag "body" ] (resetImageImports freshGlobals).2).1)
      = Normal inner
      ∧ "<div className=" +:+ dq +:+ "app" +:+ dq +:+ "><p>x</p></div>"
        = "<div className=" +:+ dq +:+ "app" +:+ dq +:+ ">" +:+ inner
          +:+ "</div>".
Proof.
  exact (conj eq_refl
           (wrapper_when_body_captured notJSON
              [ OpenTag "body" [ ("class", "app") ]; OpenTag "p" []; Text "x";
                CloseTag "p"; CloseTag "body" ] freshGlobals _ eq_refl)).
Defined.

(** C5 as stated fails on a body tag without attributes: the content is
    wrapped in [<div>], not in a fragment. *)
Lemma wrapper_counterexample :
  (convertHTMLtoJSX notJSON
     [ OpenTag "body" []; OpenTag "p" []; Text "x"; CloseTag "p";
       CloseTag "body" ] freshGlobals).1
  = Normal "<div><p>x</p></div>".
Proof. vm_compute. reflexivity. Qed.

(** ** The image import table is written, never read *)

Lemma same_refl g : sameButImages g g.
Proof. done. Qed.

Lemma same_sym g1 g2 : sameButImages g1 g2 → sameButImages g2 g1.
Proof. intros (?&?&?). by split_and!. Qed.

Lemma same_trans g1 g2 g3 :
  sameButImages g1 g2 → sameButImages g2 g3 → sameButImages g1 g3.
Proof. intros (?&?&?) (?&?&?). split_and!; congruence. Qed.

Lemma blind_ret {A} (a : A) : imagesBlind (mret a).
Proof. by intros g1 g2 H. Qed.

Lemma blind_bind {A B} (m : M A) (f : A → M B) :
  imagesBlind m → (∀ a, imagesBlind (f a)) → imagesBlind (m ≫= f).
Proof.
  intros Hm Hf g1 g2 H. unfold mbind, M_bind.
  destruct (Hm g1 g2 H) as [E H'].
  destruct (m g1) as [a1 g1'], (m g2) as [a2 g2']. cbn in E, H'. subst a2.
  by apply Hf.
Qed.

Lemma blind_gets {A} (f : Globals → A) :
  (∀ g1 g2, sameButImages g1 g2 → f g1 = f g2) → imagesBlind (gets f).
Proof. intros Hf g1 g2 H. split; [by apply Hf|done]. Qed.

Lemma blind_modify (f : Globals → Globals) :
  (∀ g1 g2, sameButImages g1 g2 → sameButImages (f g1) (f g2)) →
  imagesBlind (modify f).
Proof. intros Hf g1 g2 H. split; [done|by apply Hf]. Qed.

Lemma blind_foldM {A B} (f : B → A → M B) l :
  (∀ b a, imagesBlind (f b a)) → ∀ b, imagesBlind (foldM f b l).
Proof.
  intros Hf. induction l as [|a l IH]; intros b; cbn [foldM].
  - apply blind_ret.
  - apply blind_bind; [apply Hf|apply IH].
Qed.

(** One step through the text of a computation. *)
Ltac blind_step :=
  match goal with
  | |- imagesBlind (mret _) => apply blind_ret
  | |- imagesBlind (_ ≫= _) => apply blind_bind; [|intros ?]
  | |- imagesBlind (if ?b then _ else _) => destruct b
  | |- imagesBlind (match ?x with _ => _ end) => destruct x
  end.

Lemma blind_sanitizedLookup k : imagesBlind (sanitizedLookup k).
Proof. apply blind_gets. intros g1 g2 (_ & _ & E). by rewrite E. Qed.

Lemma blind_registerImage f n : imagesBlind (registerImage f n).
Proof. apply blind_modify. by intros g1 g2 (? & ? & ?). Qed.

Lemma blind_fixHtmlImagePath src : imagesBlind (fixHtmlImagePath src).
Proof.
  unfold fixHtmlImagePath.
  repeat first [ blind_step | apply blind_sanitizedLookup
               | apply blind_registerImage ].
Qed.

Lemma blind_mintCustomClass v : imagesBlind (mintCustomClass v).
Proof.
  unfold mintCustomClass.
  repeat first [ blind_step
               | apply blind_modify; intros g1 g2 (E1 & E2 & E3); split_and!;
                 cbn; congruence
               | apply blind_gets; by intros g1 g2 (? & ? & ?) ].
Qed.

Lemma blind_convertAttribute json acc entry :
  imagesBlind (convertAttribute json acc entry).
Proof.
  unfold convertAttribute. destruct acc, entry.
  repeat first [ blind_step | apply blind_mintCustomClass
               | apply blind_fixHtmlImagePath ].
Qed.

Lemma blind_convertAttributes json attrs :
  imagesBlind (convertAttributes json attrs).
Proof.
  unfold convertAttributes. apply blind_bind.
  - apply blind_foldM. apply blind_convertAttribute.
  - intros [jsx cls]. repeat blind_step.
Qed.

Lemma blind_handle json c e : imagesBlind (handle json c e).
Proof.
  destruct e; unfold handle; try apply blind_ret.
  unfold onopentag, openingTag.
  repeat first [ blind_step | apply blind_fixHtmlImagePath
               | apply blind_convertAttributes ].
Qed.

Lemma blind_events json events c : imagesBlind (foldM (handle json) c events).
Proof. apply blind_foldM. intros. apply blind_handle. Qed.

(** [fixHtmlImagePath] changes nothing but the image import table. *)
Lemma fixHtmlImagePath_same src g : sameButImages g (fixHtmlImagePath src g).2.
Proof.
  unfold fixHtmlImagePath, sanitizedLookup, registerImage, gets, modify,
    mbind, M_bind, mret, M_ret.
  repeat case_match; simplify_eq/=; done.
Qed.

(** ** Discarded elements *)

Lemma foldM_app {A B} (f : B → A → M B) l1 l2 b g :
  foldM f b (l1 ++ l2) g
  = let '(b', g') := foldM f b l1 g in foldM f b' l2 g'.
Proof.
  revert b g. induction l1 as [|a l1 IH]; intros b g; [done|].
  cbn [app foldM]. unfold mbind, M_bind. destruct (f b a g) as [b1 g1].
  apply IH.
Qed.

Lemma skipView_events json events : ∀ c g,
  skipView (foldM (handle json) c events g).1
  = foldl skipStep (skipView c) events.
Proof.
  induction events as [|e events IH]; intros c g; [done|].
  cbn [foldM foldl]. unfold mbind, M_bind.
  pose proof (handle_skipView json c e g) as Hs.
  destruct (handle json c e g) as [c' g']. cbn [fst] in Hs.
  by rewrite IH, Hs.
Qed.

(** Whenever nothing is being discarded the state is [idle]: the name is
    forgotten and the counter is back at 0. *)
Lemma skipStep_idle s e : (s.1.1 = false → s = idle) →
  (skipStep s e).1.1 = false → skipStep s e = idle.
Proof.
  destruct s as [[[] name] d]; intros Hs.
  - destruct e as [n a|t|n|?]; cbn; try done.
    + by repeat case_match.
    + destruct (bool_decide (Some (tagNameOf n) = name)); [|done].
      destruct (bool_decide ((d - 1)%Z = 0%Z)) eqn:E; [|done].
      apply bool_decide_eq_true in E. by rewrite E.
  - rewrite (Hs eq_refl).
    destruct e as [n a|t|n|?]; cbn; repeat case_match; cbn; done.
Qed.

Lemma discarding_idle events :
  discarding events = false → foldl skipStep idle events = idle.
Proof.
  unfold discarding.
  assert (∀ s, (s.1.1 = false → s = idle) →
               (foldl skipStep s events).1.1 = false →
               foldl skipStep s events = idle) as G.
  { induction events as [|e events IH]; intros s Hs; cbn [foldl]; [done|].
    apply IH. by apply skipStep_idle. }
  by apply G.
Qed.

Lemma idle_context c : skipView c = idle → stopSkipping (setDepth 0 c) = c.
Proof. destruct c. unfold skipView, idle. cbn. by intros [= -> -> ->]. Qed.

(** While a subtree is discarded, an open tag that is not one of
    [skipTags] adds one to the counter and is not converted; an image in
    it may still be registered. *)
Lemma onopentag_skipping json n a c g :
  skipTag c = true → has (tagNameOf n) skipTags = false →
  ∃ g', onopentag json n a c g = (setDepth (depth c + 1) c, g')
        ∧ sameButImages g g'.
Proof.
  intros Hs Hn. unfold onopentag, mbind, M_bind, mret, M_ret.
  rewrite Hn, Hs.
  destruct (truthySrc a) as [src|]; [|by eexists].
  destruct (bool_decide (tagNameOf n = "img")); [|by eexists].
  pose proof (fixHtmlImagePath_same src g) as Hg.
  destruct (fixHtmlImagePath src g) as [fixed g']. by eexists.
Qed.

(** The content of a discarded element moves the counter only, and brings
    it back to 1. *)
Lemma inner_discarded json inner : ∀ d c g,
  skipTag c = true → depth c = Z.of_nat (S d) →
  innerBalanced d inner = true →
  ∃ g', foldM (handle json) c inner g = (setDepth 1 c, g')
        ∧ sameButImages g g'.
Proof.
  induction inner as [|e inner IH]; intros d c g Hs Hd Hb.
  - cbn in Hb. apply bool_decide_eq_true in Hb. subst d.
    exists g. split; [|done]. cbn. unfold mret, M_ret. f_equal.
    destruct c; cbn in *. by subst.
  - cbn [foldM]. unfold mbind, M_bind.
    destruct e as [n a|t|n|?]; cbn [innerBalanced handle] in *.
    + apply andb_prop in Hb as [Hn Hb]. apply negb_true_iff in Hn.
      destruct (onopentag_skipping json n a c g Hs Hn) as (g1 & -> & Hg1).
      destruct (IH (S d) (setDepth (depth c + 1) c) g1) as (g2 & -> & Hg2);
        [done|cbn; lia|done|].
      exists g2. split; [done|]. by eapply same_trans.
    + unfold mret, M_ret, ontext. rewrite Hs. cbn [negb].
      rewrite !andb_false_r. cbn [andb].
      by apply (IH d).
    + destruct d as [|d']; [done|].
      unfold mret, M_ret, onclosetag. rewrite Hs. cbn [andb].
      assert ((if bool_decide (Some (tagNameOf n) = currentSkipTag c)
               then
                 if bool_decide (depth (setDepth (depth c - 1) c) = 0%Z)
                 then stopSkipping (setDepth (depth c - 1) c)
                 else setDepth (depth c - 1) c
               else setDepth (depth c - 1) c) = setDepth (depth c - 1) c) as ->.
      { destruct (bool_decide (Some _ = _)); [|done].
        rewrite bool_decide_eq_false_2; [done|]. cbn. lia. }
      destruct (IH d' (setDepth (depth c - 1) c) g) as (g2 & -> & Hg2);
        [done|cbn; lia|done|].
      by exists g2.
    + unfold mret, M_ret. by apply (IH d).
Qed.

Lemma trigger_not_img t :
  discardTrigger t = true → bool_decide (t = "img") = false.
Proof.
  unfold discardTrigger. intros H. apply bool_decide_eq_false_2. intros ->.
  by vm_compute in H.
Qed.

(** A whole discarded element gives the context back as it was. *)
Lemma discarded_element json name attributes inner closing c g :
  skipTag c = false →
  discardTrigger (tagNameOf name) = true →
  innerBalanced 0 inner = true →
  tagNameOf closing = tagNameOf name →
  ∃ g', foldM (handle json) c
          (OpenTag name attributes :: inner ++ [CloseTag closing]) g
        = (stopSkipping (setDepth 0 c), g')
        ∧ sameButImages g g'.
Proof.
  intros Hs Ht Hb Hc.
  cbn [foldM handle]. unfold mbind at 1, M_bind at 1.
  assert (onopentag json name attributes c g
          = (startSkipping (tagNameOf name) c, g)) as ->.
  { unfold onopentag, mbind, M_bind, mret, M_ret.
    rewrite (trigger_not_img _ Ht), Hs.
    destruct (truthySrc attributes); unfold mret, M_ret;
      (destruct (has (tagNameOf name) skipTags) eqn:Eh; [done|]);
      unfold discardTrigger in Ht; rewrite Eh in Ht; cbn [orb] in Ht;
      apply bool_decide_eq_true in Ht; rewrite Ht; done. }
  rewrite foldM_app.
  destruct (inner_discarded json inner 0 (startSkipping (tagNameOf name) c) g)
    as (g1 & -> & Hg1); [done..|].
  exists g1. split; [|done].
  cbn [foldM handle]. unfold mbind, M_bind, mret, M_ret, onclosetag.
  cbn [skipTag setDepth startSkipping currentSkipTag depth andb].
  by rewrite Hc, !bool_decide_eq_true_2.
Qed.

(** The discipline of the depth counter, where nothing nested restarts
    it. *)
Lemma open_trigger json c name attributes g :
  skipTag c = false → discardTrigger (tagNameOf name) = true →
  skipView (handle json c (OpenTag name attributes) g).1
  = (true, Some (tagNameOf name), 1%Z).
Proof.
  intros Hs Ht. rewrite handle_skipView. unfold skipView, skipStep.
  rewrite Hs. unfold discardTrigger in Ht.
  destruct (has (tagNameOf name) skipTags); [done|].
  cbn [orb] in Ht. apply bool_decide_eq_true in Ht. by rewrite Ht.
Qed.

Lemma open_while_discarding json c name attributes g :
  skipTag c = true → has (tagNameOf name) skipTags = false →
  skipView (handle json c (OpenTag name attributes) g).1
  = (true, currentSkipTag c, (depth c + 1)%Z).
Proof.
  intros Hs Hn. rewrite handle_skipView. unfold skipView, skipStep.
  by rewrite Hs, Hn.
Qed.

Lemma close_while_discarding json c tagname g :
  skipTag c = true →
  depth (handle json c (CloseTag tagname) g).1 = (depth c - 1)%Z
  ∧ (currentSkipTag c = Some (tagNameOf tagname) → depth c = 1%Z →
     skipTag (handle json c (CloseTag tagname) g).1 = false)
  ∧ (depth c ≠ 1%Z → skipTag (handle json c (CloseTag tagname) g).1 = true).
Proof.
  intros Hs. pose proof (handle_skipView json c (CloseTag tagname) g) as Hv.
  unfold skipView, skipStep in Hv. rewrite Hs in Hv. cbn [andb] in Hv.
  destruct (decide (Some (tagNameOf tagname) = currentSkipTag c)) as [En|En].
  - rewrite bool_decide_eq_true_2 in Hv by done.
    destruct (decide ((depth c - 1)%Z = 0%Z)) as [Ed|Ed].
    + rewrite bool_decide_eq_true_2 in Hv by done.
      injection Hv as Hf Hc Hd. split_and!; [done|done|lia].
    + rewrite bool_decide_eq_false_2 in Hv by done.
      injection Hv as Hf Hc Hd. split_and!; [done|lia|done].
  - rewrite bool_decide_eq_false_2 in Hv by done.
    injection Hv as Hf Hc Hd. split_and!; [done|congruence|done].
Qed.

(** A discarded element in the middle of a document: the call returns
    what it returns without the element. *)
Lemma discarded_leaves_no_trace json before name attributes inner closing
    after g :
  discarding before = false →
  discardTrigger (tagNameOf name) = true →
  innerBalanced 0 inner = true →
  tagNameOf closing = tagNameOf name →
  (convertHTMLtoJSX json
     (before ++ (OpenTag name attributes :: inner ++ [CloseTag closing])
      ++ after) g).1
  = (convertHTMLtoJSX json (before ++ after) g).1.
Proof.
  intros Hbefore Ht Hb Hc.
  unfold convertHTMLtoJSX, parse, mbind, M_bind.
  destruct (resetImageImports g) as [[] g0].
  rewrite !foldM_app.
  pose proof (skipView_events json before initialContext g0) as Hv.
  destruct (foldM (handle json) initialContext before g0) as [c1 g1].
  cbn [fst] in Hv. change (skipView initialContext) with idle in Hv.
  rewrite (discarding_idle _ Hbefore) in Hv.
  rewrite foldM_app.
  destruct (discarded_element json name attributes inner closing c1 g1)
    as (g1' & -> & Hg1); [by inversion Hv|done..|].
  rewrite (idle_context _ Hv).
  destruct (blind_events json after c1 g1' g1 (same_sym _ _ Hg1)) as [Ec Hg3].
  destruct (foldM (handle json) c1 after g1') as [c3 g3'].
  destruct (foldM (handle json) c1 after g1) as [c3' g3].
  cbn [fst snd] in Ec, Hg3. subst c3'.
  destruct (cleanUp (collected c3)); [|done].
  destruct (bodyAttributes c3) as [attrs|]; [|done].
  destruct (blind_convertAttributes json attrs g3' g3 Hg3) as [Ea _].
  destruct (convertAttributes json attrs g3'), (convertAttributes json attrs g3).
  cbn in Ea |- *. by subst.
Qed.

(** C1, amended.  The depth counter: opening html, head, script, noscript,
    iframe or style while nothing is being discarded sets the flag,
    records the name and sets the depth to 1; opening any tag other than
    html, head, script, noscript and iframe while discarding adds 1 to the
    depth; closing any tag while discarding takes 1 from the depth, clears
    the flag when the tag closed bears the recorded name and the depth
    was 1, and keeps the flag when the depth was not 1.  An element named
    html, head, script, noscript, iframe or style that is opened while
    nothing is being discarded, and whose content opens none of html, head,
    script, noscript and iframe, leaves no trace: the call returns what it
    returns for the input without the element. *)
Theorem discarding_discipline json :
  (∀ c name attributes g,
     skipTag c = false → discardTrigger (tagNameOf name) = true →
     skipView (handle json c (OpenTag name attributes) g).1
     = (true, Some (tagNameOf name), 1%Z))
  ∧ (∀ c name attributes g,
       skipTag c = true → has (tagNameOf name) skipTags = false →
       skipView (handle json c (OpenTag name attributes) g).1
       = (true, currentSkipTag c, (depth c + 1)%Z))
  ∧ (∀ c tagname g,
       skipTag c = true →
       depth (handle json c (CloseTag tagname) g).1 = (depth c - 1)%Z
       ∧ (currentSkipTag c = Some (tagNameOf tagname) → depth c = 1%Z →
          skipTag (handle json c (CloseTag tagname) g).1 = false)
       ∧ (depth c ≠ 1%Z →
          skipTag (handle json c (CloseTag tagname) g).1 = true))
  ∧ (∀ before name attributes inner closing after g,
       discarding before = false →
       discardTrigger (tagNameOf name) = true →
       innerBalanced 0 inner = true →
       tagNameOf closing = tagNameOf name →
       (convertHTMLtoJSX json
          (before ++ (OpenTag name attributes :: inner ++ [CloseTag closing])
           ++ after) g).1
       = (convertHTMLtoJSX json (before ++ after) g).1).
Proof.
  split_and!.
  - apply open_trigger.
  - apply open_while_discarding.
  - apply close_while_discarding.
  - apply discarded_leaves_no_trace.
Qed.

(** The witness of [discarding_discipline]: a noscript element, with an
    image and a text in it, inside a paragraph of the body. *)
Lemma discarding_discipline_witness :
  discarding [ OpenTag "body" []; OpenTag "p" [] ] = false
  ∧ discardTrigger (tagNameOf "noscript") = true
  ∧ innerBalanced 0
      [ OpenTag "img" [ ("src", "a.png") ]; CloseTag "img"; Text "x < 1" ]
    = true
  ∧ tagNameOf "noscript" = tagNameOf "noscript"
  ∧ (convertHTMLtoJSX notJSON
       ([ OpenTag "body" []; OpenTag "p" [] ]
        ++ (OpenTag "noscript" [ ("class", "fallback") ]
            :: [ OpenTag "img" [ ("src", "a.png") ]; CloseTag "img";
                 Text "x < 1" ]
            ++ [ CloseTag "noscript" ])
        ++ [ Text "hi"; CloseTag "p"; CloseTag "body" ]) freshGlobals).1
    = (convertHTMLtoJSX notJSON
         ([ OpenTag "body" []; OpenTag "p" [] ]
          ++ [ Text "hi"; CloseTag "p"; CloseTag "body" ]) freshGlobals).1.
Proof.
  exact (conj eq_refl (conj eq_refl (conj eq_refl (conj eq_refl
    (proj2 (proj2 (proj2 (discarding_discipline notJSON)))
       [ OpenTag "body" []; OpenTag "p" [] ] "noscript" [ ("class", "fallback") ]
       [ OpenTag "img" [ ("src", "a.png") ]; CloseTag "img"; Text "x < 1" ]
       "noscript" [ Text "hi"; CloseTag "p"; CloseTag "body" ] freshGlobals
       eq_refl eq_refl eq_refl eq_refl))))).
Defined.

(** C1 as stated fails for html: in the document
    [<html><head></head><body><p>hi</p></body></html>] the paragraph and
    its text stand inside the html element, and both are in the result. *)
Lemma discarding_counterexample :
  (convertHTMLtoJSX notJSON
     [ OpenTag "html" []; OpenTag "head" []; CloseTag "head";
       OpenTag "body" []; OpenTag "p" []; Text "hi"; CloseTag "p";
       CloseTag "body"; CloseTag "html" ] freshGlobals).1
  = Normal "<div><p>hi</p></div>".
Proof. vm_compute. reflexivity. Qed.

(** ** Strings put together *)

Lemma app_cons x (a b : string) : String x a +:+ b = String x (a +:+ b).
Proof. reflexivity. Qed.

Lemma app_assoc (a b c : string) : (a +:+ b) +:+ c = a +:+ (b +:+ c).
Proof. induction a as [|x a IH]; [done|]. by rewrite !app_cons, IH. Qed.

Lemma length_app (a b : string) :
  String.length (a +:+ b) = String.length a + String.length b.
Proof.
  induction a as [|x a IH]; [done|]. rewrite app_cons. cbn. by rewrite IH.
Qed.


(** ** The clean-up pass over a text where nothing matches *)

Lemma replaceAll_quiet matchAt p x :
  quiet matchAt p x →
  Regex.replaceAll matchAt 0 (p +:+ x)
  = completion_bind (Regex.replaceAll matchAt 0 x) (λ r, Normal (p +:+ r)).
Proof.
  induction p as [|c p IH]; intros Hq.
  - change ("" +:+ x) with x.
    destruct (Regex.replaceAll matchAt 0 x); reflexivity.
  - destruct Hq as [Hc Hq].
    change (String c p +:+ x) with (String c (p +:+ x)).
    cbn [Regex.replaceAll]. rewrite Hc, (IH Hq).
    destruct (Regex.replaceAll matchAt 0 x); reflexivity.
Qed.






(** ** The counter of custom classes *)





Section Preserved.

Variable R : Globals → Globals → Prop.
Hypothesis R_refl : ∀ g, R g g.
Hypothesis R_trans : ∀ g1 g2 g3, R g1 g2 → R g2 g3 → R g1 g3.
Hypothesis R_register : ∀ f n, preserves R (registerImage f n).
Hypothesis R_mint : ∀ v, preserves R (mintCustomClass v).

Lemma preserves_ret {A} (a : A) : preserves R (mret a).
Proof. intros g. apply R_refl. Qed.

Lemma preserves_bind {A B} (m : M A) (f : A → M B) :
  preserves R m → (∀ a, preserves R (f a)) → preserves R (m ≫= f).
Proof.
  intros Hm Hf g. unfold mbind, M_bind.
  pose proof (Hm g) as H1. destruct (m g) as [a g1].
  eapply R_trans; [exact H1|apply Hf].
Qed.

Lemma preserves_gets {A} (f : Globals → A) : preserves R (gets f).
Proof. intros g. apply R_refl. Qed.

Lemma preserves_foldM {A B} (f : B → A → M B) l :
  (∀ b a, preserves R (f b a)) → ∀ b, preserves R (foldM f b l).
Proof.
  intros Hf. induction l as [|a l IH]; intros b; cbn [foldM].
  - apply preserves_ret.
  - apply preserves_bind; [apply Hf|apply IH].
Qed.

Ltac preserve_step :=
  match goal with
  | |- preserves _ (mret _) => apply preserves_ret
  | |- preserves _ (gets _) => apply preserves_gets
  | |- preserves _ (sanitizedLookup _) => apply preserves_gets
  | |- preserves _ (registerImage _ _) => apply R_register
  | |- preserves _ (mintCustomClass _) => apply R_mint
  | |- preserves _ (_ ≫= _) => apply preserves_bind; [|intros ?]
  | |- preserves _ (if ?b then _ else _) => destruct b
  | |- preserves _ (match ?x with _ => _ end) => destruct x
  end.

Lemma preserves_fixHtmlImagePath src : preserves R (fixHtmlImagePath src).
Proof. unfold fixHtmlImagePath. repeat preserve_step. Qed.

Lemma preserves_convertAttributes json attrs :
  preserves R (convertAttributes json attrs).
Proof.
  unfold convertAttributes. apply preserves_bind.
  - apply preserves_foldM. intros [jsx cls] [key value].
    unfold convertAttribute.
    repeat first [ preserve_step | apply preserves_fixHtmlImagePath ].
  - intros [jsx cls]. repeat preserve_step.
Qed.

Lemma preserves_parse json events : preserves R (parse json events).
Proof.
  apply preserves_foldM. intros c [n a|t|n|d]; unfold handle;
    try apply preserves_ret.
  unfold onopentag, openingTag.
  repeat first [ preserve_step | apply preserves_fixHtmlImagePath
               | apply preserves_convertAttributes ].
Qed.

End Preserved.




(** ** The image import table *)


Lemma objSet_keys {V} k (v : V) m :
  (objSet k v m).*1 = if decide (k ∈ m.*1) then m.*1 else m.*1 ++ [k].
Proof.
  induction m as [|[k' v'] m IH]; cbn.
  - by rewrite decide_False by apply not_elem_of_nil.
  - destruct (decide (k' = k)) as [->|Hne]; cbn.
    + by rewrite decide_True by left.
    + rewrite IH. destruct (decide (k ∈ m.*1)) as [Hin|Hnin].
      * by rewrite decide_True by by right.
      * rewrite decide_False; [done|]. intros [?|?]%elem_of_cons; congruence.
Qed.

Lemma objSet_NoDup {V} k (v : V) m : NoDup m.*1 → NoDup (objSet k v m).*1.
Proof.
  intros Hm. rewrite objSet_keys. case_decide; [done|].
  apply NoDup_app. split_and!; [done| |apply NoDup_singleton].
  intros x Hx ->%list_elem_of_singleton. done.
Qed.



Lemma getImageImports_lines g :
  (getImageImports g).1 = join lf (importLine <$> imageImportsMap g).
Proof.
  unfold getImageImports, gets. cbn [fst].
  destruct (imageImportsMap g) as [|e m]; [done|].
  f_equal. apply map_ext. by intros [].
Qed.





Lemma split_go_nonempty sep s : ∀ skip cur, split_go sep skip cur s ≠ [].
Proof.
  induction s as [|c s IH]; intros skip cur; [done|]. cbn [split_go].
  destruct skip; [|apply IH]. destruct (startsWith sep (String c s)); [done|].
  apply IH.
Qed.



Lemma isImageExtSuffix_cases f :
  isImageExtSuffix f = true →
  toLowerCase f ∈ [".svg"; ".png"; ".jpg"; ".jpeg"; ".gif"; ".webp"; ".avif"].
Proof.
  unfold isImageExtSuffix. destruct (toLowerCase f) as [|a e]; [done|].
  destruct a as [[] [] [] [] [] [] [] []]; try done.
  intros H. apply bool_decide_eq_true in H.
  unfold imageExtensions in H.
  repeat (apply elem_of_cons in H as [->|H]; [by repeat constructor|]).
  by apply elem_of_nil in H.
Qed.







Lemma mappedFilename_registered filename' g src :
  mappedFilename (registered filename' g) src = mappedFilename g src.
Proof. reflexivity. Qed.




(** ** The image scenario of the specification *)



(** ** Further properties *)

Lemma bodyCapturedFrom_none events : ∀ s,
  forallb (λ e, negb (isBodyTag e)) events = true →
  bodyCapturedFrom s None events = None.
Proof.
  induction events as [|e events IH]; intros s H; [done|].
  cbn [forallb] in H. apply andb_prop in H as [He H].
  cbn [bodyCapturedFrom].
  assert (bodyOpened s e = None) as ->; [|by apply IH].
  destruct e as [n a| | |]; try done. cbn in He |- *.
  apply negb_true_iff in He. rewrite He. by rewrite andb_false_r.
Qed.

(** X1.  A document in which no body tag is opened: when the call returns,
    its result is the cleaned-up content inside a fragment, with no
    wrapper element. *)
Theorem fragment_without_body json events g :
  forallb (λ e, negb (isBodyTag e)) events = true →
  match (convertHTMLtoJSX json events g).1 with
  | Normal result =>
      ∃ inner,
        cleanUp (collected (parse json events (resetImageImports g).2).1)
        = Normal inner
        ∧ result = "<>" +:+ inner +:+ "</>"
  | Throw _ => True
  end.
Proof.
  intros Hb. unfold convertHTMLtoJSX, mbind, M_bind, mret, M_ret.
  destruct (resetImageImports g) as [[] g0]. cbn [snd].
  pose proof (parse_bodyAttributes json events initialContext g0) as Ha.
  change (bodyAttributes initialContext) with (@None (list (string * string)))
    in Ha.
  rewrite bodyCapturedFrom_none in Ha by done.
  unfold parse in *.
  destruct (foldM (handle json) initialContext events g0) as [c g1].
  cbn [fst] in *. rewrite Ha.
  destruct (cleanUp (collected c)) as [inner|]; [|done].
  by exists inner.
Qed.

(** The witness of [fragment_without_body]: a paragraph alone. *)
Lemma fragment_without_body_witness :
  forallb (λ e, negb (isBodyTag e))
    [ OpenTag "p" []; Text "x"; CloseTag "p" ] = true
  ∧ ∃ inner,
      cleanUp (collected (parse notJSON
        [ OpenTag "p" []; Text "x"; CloseTag "p" ]
        (resetImageImports freshGlobals).2).1) = Normal inner
      ∧ "<><p>x</p></>" = "<>" +:+ inner +:+ "</>".
Proof.
  exact (conj eq_refl
           (fragment_without_body notJSON
              [ OpenTag "p" []; Text "x"; CloseTag "p" ] freshGlobals eq_refl)).
Defined.



(** X3.  After every call the image import table has no filename
    twice, whatever it held before the call. *)
Theorem import_table_without_repeats json events g :
  NoDup (imageImportsMap (convertHTMLtoJSX json events g).2).*1.
Proof.
  assert (∀ f n, preserves tableNoDup (registerImage f n)) as Hr.
  { intros f n g' Hn. by apply objSet_NoDup. }
  assert (∀ v, preserves tableNoDup (mintCustomClass v)) as Hm
    by by intros v g' Hn.
  assert (∀ g1, tableNoDup g1 g1) as Hrefl by by intros ??.
  assert (∀ g1 g2 g3, tableNoDup g1 g2 → tableNoDup g2 g3 → tableNoDup g1 g3)
    as Htrans by (unfold tableNoDup; auto).
  unfold convertHTMLtoJSX, mbind, M_bind.
  destruct (resetImageImports g) as [[] g0] eqn:E0.
  assert (NoDup (imageImportsMap g0).*1) as H0.
  { injection E0 as <-. cbn. constructor. }
  pose proof (preserves_parse _ Hrefl Htrans Hr Hm json events g0 H0) as H1.
  destruct (parse json events g0) as [c g1]. cbn [snd] in H1.
  destruct (cleanUp (collected c)); [|done].
  destruct (bodyAttributes c) as [attrs|]; [|done].
  pose proof (preserves_convertAttributes _ Hrefl Htrans Hr Hm json attrs g1 H1).
  by destruct (convertAttributes json attrs g1).
Qed.

(** ** More on strings, and the text between tags *)

Lemma app_empty_r (a : string) : a +:+ "" = a.
Proof. induction a as [|x a IH]; [done|]. by rewrite app_cons, IH. Qed.

Lemma replaceChar_app c r a b :
  replaceChar c r (a +:+ b) = replaceChar c r a +:+ replaceChar c r b.
Proof.
  induction a as [|x a IH]; [done|].
  rewrite app_cons. cbn [replaceChar]. by rewrite IH, app_assoc.
Qed.

Lemma escapeJSXText_cons c s :
  escapeJSXText (String c s) = escapeChar c +:+ escapeJSXText s.
Proof.
  unfold escapeJSXText, escapeChar. cbn [replaceChar].
  rewrite !replaceChar_app.
  repeat case_bool_decide; subst; try done.
  repeat (cbn [replaceChar]; rewrite ?bool_decide_eq_false_2 by done;
          rewrite ?app_empty_r).
  reflexivity.
Qed.

Lemma includes_cons p c s :
  includes p (String c s) = startsWith p (String c s) || includes p s.
Proof. reflexivity. Qed.

Lemma includes_char_app c a b :
  includes (String c "") (a +:+ b)
  = includes (String c "") a || includes (String c "") b.
Proof.
  induction a as [|x a IH].
  - change ("" +:+ b) with b. cbn. by destruct b.
  - rewrite app_cons, !includes_cons, IH. cbn [startsWith].
    by rewrite orb_assoc.
Qed.

Lemma escapeChar_no_markup c :
  includes "<" (escapeChar c) = false ∧ includes ">" (escapeChar c) = false.
Proof.
  unfold escapeChar. repeat case_bool_decide; subst; try done.
  cbn. rewrite !bool_decide_eq_false_2 by done. done.
Qed.

Lemma escapeJSXText_inj a : ∀ b,
  escapeJSXText a = escapeJSXText b → a = b.
Proof.
  induction a as [|c a IH]; intros [|d b] H; [done|..].
  - rewrite escapeJSXText_cons in H. unfold escapeChar in H.
    repeat case_bool_decide; rewrite ?app_cons in H; discriminate H.
  - rewrite escapeJSXText_cons in H. unfold escapeChar in H.
    repeat case_bool_decide; rewrite ?app_cons in H; discriminate H.
  - rewrite !escapeJSXText_cons in H. unfold escapeChar in H.
    repeat case_bool_decide; subst; rewrite ?app_cons in H;
      try discriminate H; try (injection H as H; congruence);
      injection H as H; f_equal; try done; by apply IH.
Qed.

Lemma escapeJSXText_length text :
  String.length text ≤ String.length (escapeJSXText text).
Proof.
  induction text as [|c text IH]; [done|].
  rewrite escapeJSXText_cons, length_app. unfold escapeChar.
  repeat case_bool_decide; cbn; lia.
Qed.

(** ** An output the clean-up pass leaves alone *)

Lemma startsWith_includes p s : startsWith p s = true → includes p s = true.
Proof. intros H. destruct s; cbn [includes]; by rewrite H. Qed.

Lemma includes_app_r p a b :
  includes p b = true → includes p (a +:+ b) = true.
Proof.
  intros H. induction a as [|x a IH]; [done|].
  rewrite app_cons, includes_cons, IH. apply orb_true_r.
Qed.

Lemma excludes_app_r p a b :
  includes p (a +:+ b) = false → includes p b = false.
Proof.
  intros H. destruct (includes p b) eqn:E; [|done].
  by rewrite (includes_app_r p a b E) in H.
Qed.

Lemma excludes_cons p c s :
  includes p (String c s) = false → includes p s = false.
Proof. apply (excludes_app_r p (String c "") s). Qed.

Lemma span_app p s : s = (Regex.span p s).1 +:+ (Regex.span p s).2.
Proof.
  induction s as [|c s IH]; [done|]. cbn [Regex.span].
  destruct (p c); [|done]. destruct (Regex.span p s) as [a b].
  cbn [fst snd] in *. by rewrite app_cons, <- IH.
Qed.

Lemma drop_app n s : ∃ a, s = a +:+ drop n s.
Proof.
  revert s. induction n as [|n IH]; intros s; [by exists ""|].
  destruct s as [|c s]; [by exists ""|].
  destruct (IH s) as [a Ha]. exists (String c a).
  cbn [drop]. by rewrite app_cons, <- Ha.
Qed.

Lemma afterPrefix_excluded p r :
  includes p r = false → Regex.afterPrefix p r = None.
Proof.
  intros H. unfold Regex.afterPrefix.
  destruct (startsWith p r) eqn:E; [|done].
  by rewrite (startsWith_includes _ _ E) in H.
Qed.

Lemma eventHandlerAt_excluded s :
  includes eqQuote s = false → Regex.eventHandlerAt s = None.
Proof.
  intros H. destruct s as [|o [|n s2]]; try done.
  unfold Regex.eventHandlerAt.
  destruct (_ && _); [|done].
  pose proof (span_app isLetter s2) as Hs.
  destruct (Regex.span isLetter s2) as [event r]. cbn [fst snd] in Hs.
  destruct (truthy event); [|done].
  rewrite afterPrefix_excluded; [done|].
  apply excludes_cons, excludes_cons in H. rewrite Hs in H.
  by apply excludes_app_r in H.
Qed.

Lemma hyphenatedAt_excluded s :
  includes eqQuote s = false → Regex.hyphenatedAt s = None.
Proof.
  intros H. destruct s as [|w s1]; [done|].
  unfold Regex.hyphenatedAt.
  destruct (isSpace w); [|done].
  pose proof (span_app Regex.isNameChar s1) as Hs.
  destruct (Regex.span Regex.isNameChar s1) as [run r]. cbn [fst snd] in Hs.
  destruct (Regex.splitRun run) as [[prefix suffix]|]; [|done].
  cbn. rewrite afterPrefix_excluded; [done|].
  apply excludes_cons in H. rewrite Hs in H.
  by apply excludes_app_r in H.
Qed.

Lemma startsWith_app_includes a q : ∀ s,
  startsWith (a +:+ q) s = true → includes q s = true.
Proof.
  induction a as [|x a IH]; intros s H; [by apply startsWith_includes|].
  rewrite app_cons in H. destruct s as [|y s]; [done|].
  cbn [startsWith] in H. apply andb_prop in H as [_ H].
  rewrite includes_cons, (IH _ H). apply orb_true_r.
Qed.

Lemma classAt_excluded s :
  includes eqQuote s = false → Regex.classAt s = None.
Proof.
  intros H. destruct s as [|w s1]; [done|].
  unfold Regex.classAt.
  destruct (isSpace w); [|done]. cbn [andb].
  destruct (startsWith _ s1) eqn:E; [|done].
  apply excludes_cons in H.
  apply (startsWith_app_includes "class" eqQuote) in E. congruence.
Qed.

Lemma firstWord_None {A} words s (next : string → string → option A) :
  (∀ n w, next w (drop n s) = None) → Regex.firstWord words s next = None.
Proof.
  intros Hn. induction words as [|w words IH]; [done|].
  cbn [Regex.firstWord]. rewrite Hn, IH. by case_bool_decide.
Qed.

Lemma booleanAt_excluded s :
  includes eqQuote s = false → Regex.booleanAt s = None.
Proof.
  intros H. destruct s as [|w s1]; [done|].
  unfold Regex.booleanAt.
  destruct (isSpace w); [|done].
  apply firstWord_None. intros n attr.
  rewrite afterPrefix_excluded; [done|].
  apply excludes_cons in H.
  destruct (drop_app n s1) as [a Ha]. rewrite Ha in H.
  by apply excludes_app_r in H.
Qed.

Lemma replaceAll_unchanged matchAt p s :
  (∀ s, includes p s = false → matchAt s = None) →
  includes p s = false → Regex.replaceAll matchAt 0 s = Normal s.
Proof.
  intros Hm. induction s as [|c s IH]; intros H; [done|].
  cbn [Regex.replaceAll]. rewrite (Hm _ H).
  by rewrite (IH (excludes_cons _ _ _ H)).
Qed.

Lemma cleanUp_unchanged s : includes eqQuote s = false → cleanUp s = Normal s.
Proof.
  intros H. unfold cleanUp.
  rewrite (replaceAll_unchanged _ eqQuote) by auto using eventHandlerAt_excluded.
  cbn [completion_bind].
  rewrite (replaceAll_unchanged _ eqQuote) by auto using hyphenatedAt_excluded.
  cbn [completion_bind].
  rewrite (replaceAll_unchanged _ eqQuote) by auto using classAt_excluded.
  cbn [completion_bind].
  by rewrite (replaceAll_unchanged _ eqQuote) by auto using booleanAt_excluded.
Qed.

(** ** Well-nested markup inside the body *)









(** ** Markup without attributes *)




Lemma includes_dq_app a b :
  includes dq (a +:+ b) = includes dq a || includes dq b.
Proof. apply includes_char_app. Qed.


Lemma excludes_dq_eqQuote s :
  includes dq s = false → includes eqQuote s = false.
Proof.
  induction s as [|c s IH]; intros H; [done|].
  pose proof (excludes_cons _ _ _ H) as Hs.
  rewrite includes_cons, (IH Hs), orb_false_r.
  change eqQuote with (String "=" dq). cbn [startsWith].
  destruct (startsWith dq s) eqn:E; [|apply andb_false_r].
  by rewrite (startsWith_includes _ _ E) in Hs.
Qed.



(** ** What the converter passes over *)

Lemma convertAttribute_skipped json acc key value g :
  skippedValue value = true →
  convertAttribute json acc (key, value) g = (acc, g).
Proof. intros H. destruct acc as [jsx cls]. unfold convertAttribute. by rewrite H. Qed.

Lemma foldM_filter {A B} (f : B → A → M B) (keep : A → bool) l :
  (∀ b a g, keep a = false → f b a g = (b, g)) →
  ∀ b g, foldM f b (List.filter keep l) g = foldM f b l g.
Proof.
  intros Hf. induction l as [|a l IH]; intros b g; [done|].
  cbn [List.filter]. destruct (keep a) eqn:E; cbn [foldM]; unfold mbind, M_bind.
  - destruct (f b a g). apply IH.
  - rewrite (Hf b a g E). apply IH.
Qed.


(** ** The pieces of a split *)

Lemma rev_app_app cur : ∀ b a,
  String.rev_app cur b +:+ a = String.rev_app cur (b +:+ a).
Proof.
  induction cur as [|x cur IH]; intros b a; [done|].
  cbn [String.rev_app]. by rewrite IH.
Qed.

Lemma rev_cons_app x cur a :
  String.rev (String x cur) +:+ a = String.rev cur +:+ String x a.
Proof. unfold String.rev. cbn [String.rev_app]. by rewrite !rev_app_app. Qed.

Lemma startsWith_char c x s :
  startsWith (String c "") (String x s) = bool_decide (c = x).
Proof. cbn. apply andb_true_r. Qed.

Lemma split_go_char_app c a b : ∀ cur,
  split_go (String c "") 0 cur (a +:+ String c b)
  = split_go (String c "") 0 cur a ++ split_go (String c "") 0 "" b.
Proof.
  induction a as [|x a IH]; intros cur.
  - change ("" +:+ String c b) with (String c b). cbn [split_go].
    rewrite startsWith_char, bool_decide_eq_true_2 by done. done.
  - rewrite app_cons. cbn [split_go]. rewrite !startsWith_char.
    case_bool_decide; cbn [String.length Nat.sub]; by rewrite IH.
Qed.

Lemma split_go_char_none c a : ∀ cur,
  includes (String c "") a = false →
  split_go (String c "") 0 cur a = [ String.rev cur +:+ a ].
Proof.
  induction a as [|x a IH]; intros cur H.
  - cbn. by rewrite app_empty_r.
  - rewrite includes_cons, startsWith_char in H.
    apply orb_false_elim in H as [Hx H].
    cbn [split_go]. rewrite startsWith_char, Hx, (IH _ H).
    by rewrite rev_cons_app.
Qed.

Lemma split_char_app c a b :
  split (String c "") (a +:+ String c b)
  = split (String c "") a ++ split (String c "") b.
Proof. apply split_go_char_app. Qed.

Lemma split_char_none c a :
  includes (String c "") a = false → split (String c "") a = [ a ].
Proof. intros H. unfold split. by rewrite split_go_char_none. Qed.

Lemma split_join c parts :
  Forall (λ part, includes (String c "") part = false) parts → parts ≠ [] →
  split (String c "") (join (String c "") parts) = parts.
Proof.
  induction 1 as [|p parts Hp Hparts IH]; intros Hne; [done|].
  destruct parts as [|q parts].
  - by apply split_char_none.
  - change (join (String c "") (p :: q :: parts))
      with (p +:+ String c "" +:+ join (String c "") (q :: parts)).
    change (String c "" +:+ ?x) with (String c x).
    rewrite split_char_app, (split_char_none _ _ Hp), IH by done. done.
Qed.

(** ** The declarations of a style *)

Lemma convertDecl_second_colon acc prop value rest :
  includes ":" prop = false → includes ":" value = false →
  convertDecl acc (prop +:+ ":" +:+ value +:+ ":" +:+ rest)
  = convertDecl acc (prop +:+ ":" +:+ value).
Proof.
  intros Hp Hv. unfold convertDecl.
  change (":" +:+ value +:+ ":" +:+ rest) with (String ":" (value +:+ String ":" rest)).
  change (":" +:+ value) with (String ":" value).
  rewrite !split_char_app, !(split_char_none _ _ Hp), !(split_char_none _ _ Hv).
  pose proof (split_go_nonempty ":" rest 0 "") as Hr. fold (split ":" rest) in Hr.
  by destruct (split ":" rest).
Qed.

Lemma convertStyle_join decls :
  Forall (λ decl, includes ";" decl = false) decls → decls ≠ [] →
  convertStyle (join ";" decls)
  = let '(jsStyles, cssVars) := foldl convertDecl ([], []) decls in
    (match jsStyles with
     | [] => None
     | _ => Some ("{{ " +:+ join ", " jsStyles +:+ " }}")
     end, cssVars).
Proof. intros H Hne. unfold convertStyle. by rewrite split_join. Qed.

(** ** The numbering of the custom classes *)

Lemma objSet_fresh {V} k (v : V) m : k ∉ m.*1 → objSet k v m = m ++ [ (k, v) ].
Proof.
  induction m as [|[k' v'] m IH]; intros H; [done|].
  cbn [objSet]. cbn in H. apply not_elem_of_cons in H as [Hk H].
  rewrite decide_False by done. by rewrite IH.
Qed.

Lemma customClassName_inj a b : customClassName a = customClassName b → a = b.
Proof.
  unfold customClassName. intros H.
  apply (inj (String.append "custom-var-")) in H. by apply (inj pretty) in H.
Qed.

Lemma wellNumbered_fresh_name g :
  wellNumbered g → customClassName (S (customClassCounter g)) ∉ (cssVarMap g).*1.
Proof.
  intros ->. intros H. apply list_elem_of_fmap in H as (i & Hi & Hin).
  apply customClassName_inj in Hi. subst i.
  apply elem_of_seq in Hin. lia.
Qed.

Lemma tableGrows_same g g' :
  cssVarMap g' = cssVarMap g → customClassCounter g' = customClassCounter g →
  tableGrows g g'.
Proof.
  intros Hm Hc H. split; [unfold wellNumbered; by rewrite Hm, Hc|].
  exists []. by rewrite List.app_nil_r, Nat.add_0_r.
Qed.

Lemma tableGrows_refl g : tableGrows g g.
Proof. by apply tableGrows_same. Qed.

Lemma tableGrows_trans g1 g2 g3 :
  tableGrows g1 g2 → tableGrows g2 g3 → tableGrows g1 g3.
Proof.
  intros H12 H23 H1. destruct (H12 H1) as (H2 & a & Ea & Ca).
  destruct (H23 H2) as (H3 & b & Eb & Cb). split; [done|].
  exists (a ++ b). rewrite Eb, Ea, Cb, Ca, List.length_app. split; [|lia].
  by rewrite <- (assoc_L (++)).
Qed.

Lemma mintCustomClass_eq v g :
  mintCustomClass v g
  = (customClassName (S (customClassCounter g)),
     {| customClassCounter := S (customClassCounter g);
        cssVarMap :=
          objSet (customClassName (S (customClassCounter g))) v (cssVarMap g);
        imageImportsMap := imageImportsMap g;
        sanitizedFilenameMap := sanitizedFilenameMap g |}).
Proof. reflexivity. Qed.

Lemma tableGrows_mint v : preserves tableGrows (mintCustomClass v).
Proof.
  intros g Hg. rewrite mintCustomClass_eq. cbn [snd].
  rewrite objSet_fresh by by apply wellNumbered_fresh_name.
  split.
  - unfold wellNumbered. cbn [cssVarMap customClassCounter].
    by rewrite fmap_app, Hg, seq_S, fmap_app.
  - exists [ (customClassName (S (customClassCounter g)), v) ].
    cbn [cssVarMap customClassCounter List.length]. split; [done|lia].
Qed.

Lemma tableGrows_register f n : preserves tableGrows (registerImage f n).
Proof. intros g. by apply tableGrows_same. Qed.

Lemma tableGrows_convertHTMLtoJSX json events :
  preserves tableGrows (convertHTMLtoJSX json events).
Proof.
  pose proof tableGrows_refl as Hrefl. pose proof tableGrows_trans as Htrans.
  pose proof tableGrows_register as Hr. pose proof tableGrows_mint as Hm.
  unfold convertHTMLtoJSX.
  apply (preserves_bind _ Htrans); [intros g; by apply tableGrows_same|intros []].
  apply (preserves_bind _ Htrans); [by apply preserves_parse|intros c].
  destruct (cleanUp (collected c)); [|by apply preserves_ret].
  destruct (bodyAttributes c); [|by apply preserves_ret].
  apply (preserves_bind _ Htrans); [by apply preserves_convertAttributes|].
  intros w. by apply preserves_ret.
Qed.

(** ** The generated style sheet and the entries of the import table *)

Lemma join_app sep (l1 l2 : list string) :
  join sep (l1 ++ l2)
  = join sep l1
    +:+ match l1, l2 with _ :: _, _ :: _ => sep | _, _ => "" end
    +:+ join sep l2.
Proof.
  induction l1 as [|a l1 IH]; [done|].
  destruct l1 as [|b l1].
  - destruct l2 as [|c l2]; [by rewrite !app_empty_r|done].
  - change (join sep ((a :: b :: l1) ++ l2))
      with (a +:+ sep +:+ join sep ((b :: l1) ++ l2)).
    rewrite IH.
    change (join sep (a :: b :: l1)) with (a +:+ sep +:+ join sep (b :: l1)).
    by rewrite !app_assoc.
Qed.

Lemma generateCSSFromVars_app m1 m2 :
  generateCSSFromVars (m1 ++ m2)
  = generateCSSFromVars m1 +:+ blockSeparator m1 m2 +:+ generateCSSFromVars m2.
Proof.
  unfold generateCSSFromVars. rewrite map_app, join_app.
  by destruct m1, m2.
Qed.

Lemma objSet_Forall {V} (P : string * V → Prop) k v m :
  P (k, v) → Forall P m → Forall P (objSet k v m).
Proof.
  intros Hk. induction 1 as [|[k' v'] m Hx Hm IH]; cbn [objSet].
  - by constructor.
  - case_decide; constructor; auto.
Qed.

Lemma keepsSound_fixHtmlImagePath src : preserves keepsSound (fixHtmlImagePath src).
Proof.
  intros g Hg. unfold fixHtmlImagePath, sanitizedLookup, registerImage, gets,
    modify, mbind, M_bind, mret, M_ret.
  repeat (case_match; try done); simplify_eq; cbn [snd imageImportsMap];
    try done; apply objSet_Forall; try done; cbn [fst snd]; split; try done.
  all: match goal with H : _ && _ = true |- _ => by apply andb_prop in H as [_ ?] end.
Qed.

(** A relation that [fixHtmlImagePath] and [mintCustomClass] keep is kept
    by the whole conversion, from the state [resetImageImports] leaves. *)

Section PreservedByPaths.

Variable R : Globals → Globals → Prop.
Hypothesis R_refl : ∀ g, R g g.
Hypothesis R_trans : ∀ g1 g2 g3, R g1 g2 → R g2 g3 → R g1 g3.
Hypothesis R_fix : ∀ src, preserves R (fixHtmlImagePath src).
Hypothesis R_mint : ∀ v, preserves R (mintCustomClass v).

Ltac keep_step :=
  match goal with
  | |- preserves _ (mret _) => apply (preserves_ret _ R_refl)
  | |- preserves _ (gets _) => apply (preserves_gets _ R_refl)
  | |- preserves _ (fixHtmlImagePath _) => apply R_fix
  | |- preserves _ (mintCustomClass _) => apply R_mint
  | |- preserves _ (_ ≫= _) => apply (preserves_bind _ R_trans); [|intros ?]
  | |- preserves _ (if ?b then _ else _) => destruct b
  | |- preserves _ (match ?x with _ => _ end) => destruct x
  end.

Lemma paths_convertAttributes json attrs :
  preserves R (convertAttributes json attrs).
Proof.
  unfold convertAttributes. apply (preserves_bind _ R_trans).
  - apply (preserves_foldM _ R_refl R_trans). intros [jsx cls] [key value].
    unfold convertAttribute. repeat keep_step.
  - intros [jsx cls]. repeat keep_step.
Qed.

Lemma paths_parse json events : preserves R (parse json events).
Proof.
  apply (preserves_foldM _ R_refl R_trans).
  intros c [n a|t|n|d]; unfold handle; try apply (preserves_ret _ R_refl).
  unfold onopentag, openingTag.
  repeat first [ keep_step | apply paths_convertAttributes ].
Qed.

Lemma paths_convertHTMLtoJSX json events g :
  R (resetImageImports g).2 (convertHTMLtoJSX json events g).2.
Proof.
  unfold convertHTMLtoJSX, mbind, M_bind.
  destruct (resetImageImports g) as [[] g0]. cbn [snd].
  pose proof (paths_parse json events g0) as H1.
  destruct (parse json events g0) as [c g1]. cbn [snd] in H1.
  destruct (cleanUp (collected c)); [|done].
  destruct (bodyAttributes c) as [attrs|]; [|done].
  pose proof (paths_convertAttributes json attrs g1) as H2.
  destruct (convertAttributes json attrs g1) as [w g2].
  by apply (R_trans _ _ _ H1).
Qed.

End PreservedByPaths.

Lemma tableSound_convertHTMLtoJSX json events g :
  tableSound (convertHTMLtoJSX json events g).2.
Proof.
  refine (paths_convertHTMLtoJSX keepsSound _ _ _ _ json events g _).
  - by intros g1 H.
  - unfold keepsSound. auto.
  - apply keepsSound_fixHtmlImagePath.
  - by intros v g' H.
  - constructor.
Qed.

(** ** Import names *)

Lemma mapChars_app f a b : mapChars f (a +:+ b) = mapChars f a +:+ mapChars f b.
Proof.
  induction a as [|x a IH]; [done|]. rewrite app_cons. cbn [mapChars].
  by rewrite IH.
Qed.

Lemma includes_dot_lower a e :
  includes "." (toLowerCase (a +:+ "." +:+ e)) = true.
Proof.
  unfold toLowerCase. rewrite mapChars_app. apply includes_app_r.
  rewrite mapChars_app. by apply startsWith_includes.
Qed.

Lemma stripImageExt_extension b e :
  has (toLowerCase e) imageExtensions = true →
  stripImageExt (b +:+ "." +:+ e) = Some b.
Proof.
  intros He. induction b as [|c b IH].
  - change ("" +:+ "." +:+ e) with (String "." e).
    cbn [stripImageExt].
    change (isImageExtSuffix (String "." e))
      with (has (toLowerCase e) imageExtensions).
    by rewrite He.
  - rewrite app_cons. 
    assert (isImageExtSuffix (String c (b +:+ "." +:+ e)) = false) as Hn.
    { destruct (isImageExtSuffix _) eqn:E; [|done].
      apply isImageExtSuffix_cases in E.
      pose proof (includes_dot_lower b e) as Hd.
      cbn [toLowerCase mapChars] in E.
      repeat (apply elem_of_cons in E as [E|E];
              [injection E as _ E; by rewrite E in Hd|]).
      by apply elem_of_nil in E. }
    cbn [stripImageExt]. by rewrite Hn, IH.
Qed.

(** ** The class among the attributes *)



(** ** A document around its body *)







(** ** Paths the map does not know *)

Lemma pop_segments segments file :
  Forall (λ segment, includes "/" segment = false) segments →
  includes "/" file = false →
  pop (split "/" (join "/" (segments ++ [ file ]))) = file.
Proof.
  intros Hs Hf. rewrite split_join.
  - unfold pop. by rewrite last_snoc.
  - apply Forall_app. split; [done|by constructor].
  - by destruct segments.
Qed.

(** ** A document without body *)






(** ** Ordinary attributes *)

Lemma escapeQuotes_dq value : includes dq (escapeQuotes value) = false.
Proof.
  unfold escapeQuotes. induction value as [|c value IH]; [done|].
  cbn [replaceChar]. rewrite includes_dq_app, IH, orb_false_r.
  case_bool_decide as Hc; [done|].
  cbn. rewrite orb_false_r, andb_true_r. apply bool_decide_eq_false_2.
  congruence.
Qed.

Lemma convertAttribute_ordinary json jsx cls entry g :
  ordinary entry = true →
  convertAttribute json (jsx, cls) entry g
  = ((jsx +:+ quotedAttribute entry, cls), g).
Proof.
  destruct entry as [key value]. unfold ordinary. intros H.
  apply andb_prop in H as [H Hbrace]. apply andb_prop in H as [H Hskip].
  apply andb_prop in H as [H Hbool]. apply andb_prop in H as [H Hsrc].
  apply andb_prop in H as [Hclass Hdata].
  apply negb_true_iff in Hbrace, Hskip, Hbool, Hsrc, Hclass, Hdata.
  unfold classOrStyle in Hclass.
  apply orb_false_elim in Hclass as [Hclass H3].
  apply orb_false_elim in Hclass as [H1 H2].
  unfold convertAttribute, quotedAttribute, escapeQuotes.
  rewrite Hskip, H1, H2, H3, Hdata. cbn [orb].
  assert (bool_decide (toLowerCase key = "data-props") = false) as ->.
  { apply bool_decide_eq_false_2. intros E. by rewrite E in Hdata. }
  cbn [orb]. rewrite Hsrc. unfold mbind, M_bind, mret, M_ret. cbn [fst snd].
  by rewrite Hbrace, Hbool.
Qed.

Lemma convertAttributes_ordinary_eq json attrs g :
  forallb ordinary attrs = true →
  convertAttributes json attrs g
  = (concatAll (quotedAttribute <$> attrs), g).
Proof.
  intros H. unfold convertAttributes, mbind, M_bind.
  assert (∀ jsx, foldM (convertAttribute json) (jsx, None) attrs g
                 = ((jsx +:+ concatAll (quotedAttribute <$> attrs), None), g))
    as ->; [|done].
  induction attrs as [|entry attrs IH]; intros jsx.
  - cbn. by rewrite app_empty_r.
  - cbn [forallb] in H. apply andb_prop in H as [He H].
    cbn [foldM]. unfold mbind, M_bind.
    rewrite convertAttribute_ordinary by done.
    rewrite (IH H). cbn [fmap list_fmap concatAll]. by rewrite app_assoc.
Qed.

(** ** Inline event handlers *)

Lemma span_before_space f p x :
  f " "%char = false →
  ∃ a b, p = a +:+ b
         ∧ Regex.span f (p +:+ String " " x) = (a, b +:+ String " " x).
Proof.
  intros Hf. induction p as [|c p (a & b & -> & IH)].
  - exists "", "". split; [done|].
    change ("" +:+ String " " x) with (String " " x).
    cbn [Regex.span]. by rewrite Hf.
  - rewrite app_cons. cbn [Regex.span]. destruct (f c).
    + exists (String c a), b. split; [done|]. by rewrite IH.
    + by exists "", (String c (a +:+ b)).
Qed.

Lemma startsWith_eqQuote_space b x :
  includes dq b = false → startsWith eqQuote (b +:+ String " " x) = false.
Proof.
  intros H. change eqQuote with (String "=" (String (ascii_of_nat 34) "")).
  destruct b as [|c [|d b]]; [done|..]; rewrite ?app_cons.
  - change ("" +:+ String " " x) with (String " " x). cbn [startsWith].
    rewrite (bool_decide_eq_false_2 (_ = " "%char)) by done.
    by rewrite andb_false_r.
  - apply excludes_cons in H. unfold dq in H.
    rewrite includes_cons, startsWith_char in H.
    apply orb_false_elim in H as [H _].
    cbn [startsWith]. rewrite H. by rewrite andb_false_r.
Qed.

Lemma eventHandlerAt_before_space p x :
  includes dq p = false → Regex.eventHandlerAt (p +:+ String " " x) = None.
Proof.
  intros H. destruct p as [|o [|n p]].
  - by destruct x.
  - rewrite app_cons. change ("" +:+ String " " x) with (String " " x).
    unfold Regex.eventHandlerAt.
    change (bool_decide (lowerChar " " = "n"%char)) with false.
    by rewrite andb_false_r.
  - rewrite !app_cons. unfold Regex.eventHandlerAt.
    destruct (_ && _); [|done].
    do 2 apply excludes_cons in H.
    destruct (span_before_space isLetter p x) as (a & b & -> & ->); [done|].
    destruct (truthy a); [|done].
    unfold Regex.afterPrefix.
    rewrite startsWith_eqQuote_space; [done|].
    by apply excludes_app_r in H.
Qed.

Lemma quiet_eventHandlerAt_space q y :
  includes dq q = false → quiet Regex.eventHandlerAt (q +:+ " ") y.
Proof.
  intros H. induction q as [|c q IH].
  - split; [|done]. change ("" +:+ y) with y.
    unfold Regex.eventHandlerAt. by destruct y.
  - rewrite app_cons. split; [|apply IH; by apply excludes_cons in H].
    rewrite app_assoc. change (" " +:+ y) with (String " " y).
    rewrite <- app_cons. by apply eventHandlerAt_before_space.
Qed.

Lemma span_letters ev rest :
  allLetters ev = true →
  match rest with String c _ => isLetter c = false | "" => True end →
  Regex.span isLetter (ev +:+ rest) = (ev, rest).
Proof.
  intros He Hr. induction ev as [|c ev IH].
  - change ("" +:+ rest) with rest. destruct rest as [|c rest]; [done|].
    cbn. by rewrite Hr.
  - cbn in He. apply andb_prop in He as [Hc He].
    rewrite app_cons. cbn [Regex.span]. by rewrite Hc, IH.
Qed.

Lemma untilQuote_app h rest :
  includes dq h = false →
  Regex.untilQuote (h +:+ dq +:+ rest) = Some (h, rest).
Proof.
  intros H. induction h as [|c h IH].
  - change ("" +:+ dq +:+ rest) with (String (ascii_of_nat 34) rest).
    cbn [Regex.untilQuote]. by rewrite bool_decide_eq_true_2.
  - unfold dq in H. rewrite includes_cons, startsWith_char in H. fold dq in H.
    apply orb_false_elim in H as [Hc H]. apply bool_decide_eq_false_1 in Hc.
    rewrite app_cons. cbn [Regex.untilQuote].
    rewrite bool_decide_eq_false_2 by congruence.
    by rewrite (IH H).
Qed.

Lemma replaceAll_skip matchAt a rest :
  Regex.replaceAll matchAt (String.length a) (a +:+ rest)
  = Regex.replaceAll matchAt 0 rest.
Proof.
  induction a as [|c a IH]; [by destruct rest|].
  rewrite app_cons. cbn [String.length Regex.replaceAll]. apply IH.
Qed.

Lemma letter_not_dq c : isLetter c = true → c ≠ ascii_of_nat 34.
Proof. intros H ->. done. Qed.

Lemma allLetters_dq s : allLetters s = true → includes dq s = false.
Proof.
  induction s as [|c s IH]; [done|]. cbn [allLetters]. intros H.
  apply andb_prop in H as [Hc H]. unfold dq.
  rewrite includes_cons, startsWith_char. fold dq. rewrite (IH H), orb_false_r.
  apply bool_decide_eq_false_2. intros E. by apply (letter_not_dq c).
Qed.

Lemma eventHandlerAt_match ev h rest :
  ev ≠ "" → allLetters ev = true → includes dq h = false →
  Regex.eventHandlerAt ("on" +:+ ev +:+ "=" +:+ dq +:+ h +:+ dq +:+ rest)
  = Some (Normal ("on" +:+ toUpperCase (charAt0 ev) +:+ slice1 ev
                  +:+ "={() => { " +:+ h +:+ " }}"),
          2 + String.length ev + 2 + String.length h + 1).
Proof.
  intros Hne He Hh.
  change ("on" +:+ ev +:+ "=" +:+ dq +:+ h +:+ dq +:+ rest)
    with (String "o" (String "n"
            (ev +:+ String "=" (String (ascii_of_nat 34) (h +:+ dq +:+ rest))))).
  unfold Regex.eventHandlerAt.
  change (bool_decide (lowerChar "o" = "o"%char)
          && bool_decide (lowerChar "n" = "n"%char)) with true.
  cbv iota. rewrite span_letters by done.
  rewrite (truthy_true ev) by done.
  change (Regex.afterPrefix ("=" +:+ dq)
            (String "=" (String (ascii_of_nat 34) (h +:+ dq +:+ rest))))
    with (Some (h +:+ dq +:+ rest)).
  cbn [mbind option_bind]. rewrite untilQuote_app by done.
  cbn [mbind option_bind]. by rewrite !app_assoc.
Qed.


Lemma upperChar_letter c : isLetter c = true → isLetter (upperChar c) = true.
Proof. by destruct c as [[] [] [] [] [] [] [] []]. Qed.


Lemma capitalised_dq ev :
  allLetters ev = true →
  includes dq (toUpperCase (charAt0 ev) +:+ slice1 ev) = false.
Proof.
  intros H. apply allLetters_dq. destruct ev as [|c ev]; [done|].
  change (toUpperCase (charAt0 (String c ev)) +:+ slice1 (String c ev))
    with (String (upperChar c) ev).
  cbn [allLetters] in *. apply andb_prop in H as [Hc H].
  by rewrite (upperChar_letter c Hc).
Qed.

Lemma quiet_withoutO q y : withoutO q = true → quiet Regex.eventHandlerAt q y.
Proof.
  induction q as [|c q IH]; [done|]. cbn [withoutO]. intros H.
  apply andb_prop in H as [Hc H]. split; [|by apply IH].
  apply negb_true_iff in Hc. unfold Regex.eventHandlerAt.
  destruct (q +:+ y); [done|]. by rewrite Hc.
Qed.

Lemma replaceAll_event_handler p q ev h tail :
  includes dq p = false → withoutO q = true →
  ev ≠ "" → allLetters ev = true →
  includes dq h = false → includes dq tail = false →
  Regex.replaceAll Regex.eventHandlerAt 0
    (p +:+ " " +:+ q +:+ "on" +:+ ev +:+ "=" +:+ dq +:+ h +:+ dq +:+ tail)
  = Normal (p +:+ " " +:+ q +:+ "on" +:+ toUpperCase (charAt0 ev)
            +:+ slice1 ev +:+ "={() => { " +:+ h +:+ " }}" +:+ tail).
Proof.
  intros Hp Hq Hne He Hh Ht.
  rewrite <- (app_assoc p " ").
  rewrite replaceAll_quiet by by apply quiet_eventHandlerAt_space.
  rewrite replaceAll_quiet by by apply quiet_withoutO.
  pose proof (eventHandlerAt_match ev h tail Hne He Hh) as Hm.
  change ("on" +:+ ev +:+ "=" +:+ dq +:+ h +:+ dq +:+ tail)
    with (String "o" ("n" +:+ ev +:+ "=" +:+ dq +:+ h +:+ dq +:+ tail)) in *.
  cbn [Regex.replaceAll]. rewrite Hm. cbn [completion_bind].
  replace (2 + String.length ev + 2 + String.length h + 1 - 1)
    with (String.length ("n" +:+ ev +:+ "=" +:+ dq +:+ h +:+ dq)).
  2:{ rewrite !length_app. cbn. lia. }
  replace ("n" +:+ ev +:+ "=" +:+ dq +:+ h +:+ dq +:+ tail)
    with (("n" +:+ ev +:+ "=" +:+ dq +:+ h +:+ dq) +:+ tail)
    by by rewrite !app_assoc.
  rewrite replaceAll_skip.
  rewrite (replaceAll_unchanged _ eqQuote)
    by auto using eventHandlerAt_excluded, excludes_dq_eqQuote.
  cbn [completion_bind]. by rewrite !app_assoc.
Qed.

Lemma cleanUp_event_handler p q ev h tail :
  includes dq p = false → withoutO q = true → includes dq q = false →
  ev ≠ "" → allLetters ev = true →
  includes dq h = false → includes dq tail = false →
  cleanUp (p +:+ " " +:+ q +:+ "on" +:+ ev +:+ "=" +:+ dq +:+ h +:+ dq
           +:+ tail)
  = Normal (p +:+ " " +:+ q +:+ "on" +:+ toUpperCase (charAt0 ev)
            +:+ slice1 ev +:+ "={() => { " +:+ h +:+ " }}" +:+ tail).
Proof.
  intros Hp Hq Hqd Hne He Hh Ht. unfold cleanUp.
  rewrite replaceAll_event_handler by done. cbn [completion_bind].
  assert (includes eqQuote
            (p +:+ " " +:+ q +:+ "on" +:+ toUpperCase (charAt0 ev)
             +:+ slice1 ev +:+ "={() => { " +:+ h +:+ " }}" +:+ tail) = false)
    as Hx.
  { apply excludes_dq_eqQuote.
    pose proof (capitalised_dq ev He) as Hc.
    rewrite includes_dq_app in Hc. apply orb_false_elim in Hc as [Hc1 Hc2].
    by rewrite !includes_dq_app, Hp, Hqd, Hc1, Hc2, Hh, Ht. }
  rewrite (replaceAll_unchanged _ eqQuote) by auto using hyphenatedAt_excluded.
  cbn [completion_bind].
  rewrite (replaceAll_unchanged _ eqQuote) by auto using classAt_excluded.
  cbn [completion_bind].
  by rewrite (replaceAll_unchanged _ eqQuote) by auto using booleanAt_excluded.
Qed.



Lemma jsxEventName_cons c event :
  jsxEventName (String c event)
  = String "o" (String "n" (String (upperChar (lowerChar c)) (toLowerCase event))).
Proof. reflexivity. Qed.




(** ** Declarations without a colon *)

Lemma convertDecl_without_colon acc decl :
  includes ":" decl = false → convertDecl acc decl = acc.
Proof.
  intros H. unfold convertDecl. rewrite (split_char_none _ _ H).
  by destruct acc.
Qed.

Lemma convertStyle_declarations decls :
  Forall (λ decl, includes ";" decl = false) decls →
  convertStyle (join ";" decls)
  = let '(jsStyles, cssVars) := foldl convertDecl ([], []) decls in
    (match jsStyles with
     | [] => None
     | _ => Some ("{{ " +:+ join ", " jsStyles +:+ " }}")
     end, cssVars).
Proof.
  intros H. destruct decls as [|decl decls]; [done|].
  by apply convertStyle_join.
Qed.

Lemma foldl_convertDecl_filter decls : ∀ acc,
  foldl convertDecl acc (List.filter (includes ":") decls)
  = foldl convertDecl acc decls.
Proof.
  induction decls as [|decl decls IH]; intros acc; [done|].
  cbn [List.filter]. destruct (includes ":" decl) eqn:E; cbn [foldl].
  - apply IH.
  - rewrite convertDecl_without_colon by done. apply IH.
Qed.

Lemma Forall_List_filter {A} (P : A → Prop) f (l : list A) :
  Forall P l → Forall P (List.filter f l).
Proof.
  induction 1 as [|a l Ha Hl IH]; [constructor|].
  cbn [List.filter]. destruct (f a); [by constructor|done].
Qed.

(** ** Names with a namespace *)

Lemma upperChar_colon c : c ≠ ":"%char → upperChar c ≠ ":"%char.
Proof. destruct c as [[] [] [] [] [] [] [] []]; vm_compute; congruence. Qed.

Lemma lowerChar_colon c : lowerChar c = ":"%char ↔ c = ":"%char.
Proof. destruct c as [[] [] [] [] [] [] [] []]; vm_compute; split; congruence. Qed.

Lemma lowerChar_lineTerminator c :
  isLineTerminator (lowerChar c) = isLineTerminator c.
Proof. by destruct c as [[] [] [] [] [] [] [] []]. Qed.

Lemma capitalise_colon s : includes ":" s = false → includes ":" (capitalise s) = false.
Proof.
  destruct s as [|c s]; [done|]. intros H.
  change (capitalise (String c s)) with (String (upperChar c) s).
  rewrite includes_cons, startsWith_char in H |- *.
  apply orb_false_elim in H as [Hc H]. rewrite H, orb_false_r.
  apply bool_decide_eq_false_1 in Hc. apply bool_decide_eq_false_2.
  intros E. symmetry in E. by apply upperChar_colon in E.
Qed.

Lemma jsxKeyOf_namespace_eq namespace attr :
  includes ":" namespace = false → includes ":" attr = false →
  jsxKeyOf (namespace +:+ ":" +:+ attr)
  = (if bool_decide (toLowerCase namespace = "xmlns") then "xmlns"
     else namespace) +:+ capitalise attr.
Proof.
  intros Hn Ha. unfold jsxKeyOf.
  change (":" +:+ attr) with (String ":" attr).
  assert (includes ":" (namespace +:+ String ":" attr) = true) as ->.
  { by apply includes_app_r. }
  rewrite split_char_app, (split_char_none _ _ Hn), (split_char_none _ _ Ha).
  cbn [app firstTwo default]. unfold id.
  by case_bool_decide.
Qed.

Lemma afterFirstColon_prefix prefix rest :
  includes ":" prefix = false → oneLine prefix = true →
  afterFirstColon (prefix +:+ String ":" rest) = Some rest.
Proof.
  induction prefix as [|c prefix IH]; intros Hc Hl.
  - change ("" +:+ String ":" rest) with (String ":" rest). cbn.
    by rewrite bool_decide_eq_true_2.
  - rewrite includes_cons, startsWith_char in Hc.
    apply orb_false_elim in Hc as [Hc Hp]. apply bool_decide_eq_false_1 in Hc.
    cbn [oneLine] in Hl. apply andb_prop in Hl as [Hl Ho].
    apply negb_true_iff in Hl.
    rewrite app_cons. cbn [afterFirstColon].
    rewrite bool_decide_eq_false_2 by congruence. rewrite Hl. by apply IH.
Qed.

Lemma includes_colon_lower s : includes ":" (toLowerCase s) = includes ":" s.
Proof.
  induction s as [|c s IH]; [done|].
  change (toLowerCase (String c s)) with (String (lowerChar c) (toLowerCase s)).
  rewrite !includes_cons, !startsWith_char, IH. f_equal.
  apply bool_decide_ext.
  split; intros E; symmetry in E; symmetry; by apply lowerChar_colon.
Qed.

Lemma oneLine_lower s : oneLine (toLowerCase s) = oneLine s.
Proof.
  induction s as [|c s IH]; [done|].
  change (toLowerCase (String c s)) with (String (lowerChar c) (toLowerCase s)).
  cbn [oneLine]. by rewrite lowerChar_lineTerminator, IH.
Qed.

Lemma afterFirstColon_none s : includes ":" s = false → afterFirstColon s = None.
Proof.
  induction s as [|c s IH]; [done|]. intros H.
  rewrite includes_cons, startsWith_char in H.
  apply orb_false_elim in H as [Hc H]. apply bool_decide_eq_false_1 in Hc.
  cbn [afterFirstColon]. rewrite bool_decide_eq_false_2 by congruence.
  rewrite (IH H). by destruct (isLineTerminator c).
Qed.

Lemma tagNameOf_namespace_eq prefix name :
  includes ":" prefix = false → oneLine prefix = true →
  includes ":" name = false →
  tagNameOf (prefix +:+ ":" +:+ name) = tagNameOf name.
Proof.
  intros Hc Hl Hn. unfold tagNameOf.
  change (":" +:+ name) with (String ":" name).
  unfold toLowerCase at 1 2. rewrite mapChars_app. cbn [mapChars].
  change (lowerChar ":") with ":"%char. fold (toLowerCase prefix).
  fold (toLowerCase name).
  rewrite afterFirstColon_prefix
    by by rewrite ?includes_colon_lower, ?oneLine_lower.
  rewrite afterFirstColon_none by by rewrite includes_colon_lower.
  done.
Qed.

(** ** An image of the body *)


(** ** Further properties: text between tags *)

(** X4.  The text [escapeJSXText] returns holds no angle bracket: a text
    between tags can neither open nor close a tag. *)
Theorem escapeJSXText_without_markup text :
  includes "<" (escapeJSXText text) = false
  ∧ includes ">" (escapeJSXText text) = false.
Proof.
  induction text as [|c text [IH1 IH2]]; [done|].
  rewrite escapeJSXText_cons, !includes_char_app, IH1, IH2.
  destruct (escapeChar_no_markup c) as [-> ->]. done.
Qed.

(** X5.  [escapeJSXText] keeps texts apart: two different texts have
    different escaped texts, so the text can be read back. *)
Theorem escapeJSXText_distinct a b :
  a ≠ b → escapeJSXText a ≠ escapeJSXText b.
Proof. intros H E. by apply H, escapeJSXText_inj. Qed.

(** The witness of [escapeJSXText_distinct]: an angle bracket and the
    entity that stands for it. *)
Lemma escapeJSXText_distinct_witness :
  "<" ≠ "&lt;" ∧ escapeJSXText "<" ≠ escapeJSXText "&lt;".
Proof.
  split; [discriminate|].
  apply (escapeJSXText_distinct "<" "&lt;"). discriminate.
Defined.

(** X6.  [escapeJSXText] works character by character: the escaped text of
    two texts put together is their escaped texts put together. *)
Theorem escapeJSXText_of_pieces a b :
  escapeJSXText (a +:+ b) = escapeJSXText a +:+ escapeJSXText b.
Proof. unfold escapeJSXText. by rewrite !replaceChar_app. Qed.

(** X7.  [escapeJSXText] returns a text as it is exactly when the text has
    no ampersand and no angle bracket. *)
Theorem escapeJSXText_unchanged text :
  escapeJSXText text = text
  ↔ includes "&" text = false ∧ includes "<" text = false
    ∧ includes ">" text = false.
Proof.
  induction text as [|c text IH]; [done|].
  rewrite escapeJSXText_cons, !includes_cons, !startsWith_char.
  pose proof (escapeJSXText_length text) as Hlen.
  destruct (decide (c = "&"%char)) as [->|H1];
    [|destruct (decide (c = "<"%char)) as [->|H2];
      [|destruct (decide (c = ">"%char)) as [->|H3]]].
  1-3: split; [|by intros (? & ? & ?)]; intros H; exfalso;
    vm_compute escapeChar in H; rewrite !app_cons in H;
    first [ discriminate H
          | injection H as H; apply (f_equal String.length) in H; cbn in H;
            change ("" +:+ escapeJSXText text) with (escapeJSXText text) in H;
            lia ].
  unfold escapeChar.
  rewrite !(bool_decide_eq_false_2 (c = _)) by done.
  rewrite !(bool_decide_eq_false_2 (_ = c)) by congruence.
  cbn [orb]. rewrite <- IH, app_cons. split; [by intros [= ?]|by intros ->].
Qed.

(** ** Further properties: the clean-up pass *)

(** X8.  Every pattern of the clean-up pass needs an equals sign followed
    by a double quote: an output without these two characters in a row
    goes through the pass unchanged, and the pass does not throw. *)
Theorem cleanUp_without_quoted_value output :
  includes eqQuote output = false → cleanUp output = Normal output.
Proof. apply cleanUp_unchanged. Qed.

(** The witness of [cleanUp_without_quoted_value]: a paragraph with a
    quotation. *)
Lemma cleanUp_without_quoted_value_witness :
  includes eqQuote ("<p>say " +:+ dq +:+ "hi" +:+ dq +:+ "</p>") = false
  ∧ cleanUp ("<p>say " +:+ dq +:+ "hi" +:+ dq +:+ "</p>")
    = Normal ("<p>say " +:+ dq +:+ "hi" +:+ dq +:+ "</p>").
Proof.
  exact (conj eq_refl
           (cleanUp_without_quoted_value
              ("<p>say " +:+ dq +:+ "hi" +:+ dq +:+ "</p>") eq_refl)).
Defined.

(** X9.  The first replacement of the clean-up pass looks for the letters
    [on] followed by letters and a quoted value anywhere in the output, not
    at the start of an attribute name only.  In an output without any other
    double quote, an attribute whose name is [q], then [on], then the
    letters [ev] is rewritten as a handler: the first letter of [ev] is put
    in upper case and the value becomes the body of an arrow function. *)
Theorem cleanUp_rewrites_names_with_on p q ev h tail :
  includes dq p = false → withoutO q = true → includes dq q = false →
  ev ≠ "" → allLetters ev = true →
  includes dq h = false → includes dq tail = false →
  cleanUp (p +:+ " " +:+ q +:+ "on" +:+ ev +:+ "=" +:+ dq +:+ h +:+ dq
           +:+ tail)
  = Normal (p +:+ " " +:+ q +:+ "on" +:+ toUpperCase (charAt0 ev)
            +:+ slice1 ev +:+ "={() => { " +:+ h +:+ " }}" +:+ tail).
Proof. apply cleanUp_event_handler. Qed.

(** The witness of [cleanUp_rewrites_names_with_on]: the attribute
    [content] of a [meta] element. *)
Lemma cleanUp_rewrites_names_with_on_witness :
  cleanUp ("<meta content=" +:+ dq +:+ "x" +:+ dq +:+ " />")
  = Normal "<meta conTent={() => { x }} />".
Proof.
  exact (cleanUp_rewrites_names_with_on "<meta" "c" "tent" "x" " />"
           eq_refl eq_refl eq_refl ltac:(discriminate) eq_refl eq_refl eq_refl).
Defined.

(** ** Further properties: what the converter passes over *)


(** X11.  Attributes whose value is empty, [{}], [[]] or [null] leave no
    trace: [convertAttributes] returns for a tag what it returns for the
    tag without them, with the same module state. *)
Theorem skipped_attributes_ignored json attrs g :
  convertAttributes json
    (List.filter (λ entry, negb (skippedValue entry.2)) attrs) g
  = convertAttributes json attrs g.
Proof.
  unfold convertAttributes, mbind, M_bind.
  rewrite foldM_filter; [done|].
  intros b [key value] g' H. apply negb_false_iff in H.
  by apply convertAttribute_skipped.
Qed.

(** ** Further properties: attributes *)



(** X13.  Ordinary attributes (no class, style, data attribute, [src] or
    boolean attribute, and a value that is neither passed over nor in
    braces) are written in their order, each as a space, its JSX name and
    its value between double quotes; every double quote of a value is
    written as the entity, so that no value ends its own quotes; the module
    state is left as it is. *)
Theorem ordinary_attributes_quoted json attrs g :
  forallb ordinary attrs = true →
  convertAttributes json attrs g = (concatAll (quotedAttribute <$> attrs), g)
  ∧ ∀ value, includes dq (escapeQuotes value) = false.
Proof.
  intros H. split; [by apply convertAttributes_ordinary_eq|].
  apply escapeQuotes_dq.
Qed.

(** The witness of [ordinary_attributes_quoted]: an [id] and a title with
    a quotation. *)
Lemma ordinary_attributes_quoted_witness :
  convertAttributes notJSON
    [ ("id", "main"); ("title", "say " +:+ dq +:+ "hi" +:+ dq) ] freshGlobals
  = (" id=" +:+ dq +:+ "main" +:+ dq
     +:+ " title=" +:+ dq +:+ "say &quot;hi&quot;" +:+ dq, freshGlobals).
Proof.
  exact (proj1 (ordinary_attributes_quoted notJSON
                  [ ("id", "main"); ("title", "say " +:+ dq +:+ "hi" +:+ dq) ]
                  freshGlobals eq_refl)).
Defined.

(** ** Further properties: styles *)

(** X14.  [convertStyle] reads a declaration up to its second colon: what
    follows that colon is lost, whatever the other declarations are.  A
    value such as [url(http://host/a.png)] is cut after [url(http]. *)
Theorem style_value_cut_at_second_colon before after prop value rest :
  Forall (λ decl, includes ";" decl = false) before →
  Forall (λ decl, includes ";" decl = false) after →
  includes ";" prop = false → includes ";" value = false →
  includes ";" rest = false →
  includes ":" prop = false → includes ":" value = false →
  convertStyle
    (join ";" (before ++ [ prop +:+ ":" +:+ value +:+ ":" +:+ rest ] ++ after))
  = convertStyle (join ";" (before ++ [ prop +:+ ":" +:+ value ] ++ after)).
Proof.
  intros Hb Ha Hp Hv Hr Hcp Hcv.
  rewrite !convertStyle_join.
  - rewrite !foldl_app. cbn [foldl]. by rewrite convertDecl_second_colon.
  - apply Forall_app. split; [done|]. constructor; [|done].
    by rewrite !includes_char_app, Hp, Hv.
  - by destruct before.
  - apply Forall_app. split; [done|]. constructor; [|done].
    by rewrite !includes_char_app, Hp, Hv, Hr.
  - by destruct before.
Qed.

(** The witness of [style_value_cut_at_second_colon]: a colour and a
    background image. *)
Lemma style_value_cut_at_second_colon_witness :
  convertStyle "color:red;background:url(http://host/a.png)"
  = (Some "{{ color: 'red', background: 'url(http' }}", []).
Proof.
  exact (style_value_cut_at_second_colon [ "color:red" ] [] "background"
           "url(http" "//host/a.png)"
           ltac:(repeat constructor) ltac:(constructor)
           eq_refl eq_refl eq_refl eq_refl eq_refl).
Defined.

(** X15.  [convertStyle] passes over the declarations without a colon,
    empty ones included: a style gives what the style without them
    gives. *)
Theorem style_declarations_without_colon decls :
  Forall (λ decl, includes ";" decl = false) decls →
  convertStyle (join ";" (List.filter (includes ":") decls))
  = convertStyle (join ";" decls).
Proof.
  intros H. rewrite !convertStyle_declarations
    by first [done | by apply Forall_List_filter].
  by rewrite foldl_convertDecl_filter.
Qed.

(** The witness of [style_declarations_without_colon]: a stray word and a
    trailing semicolon. *)
Lemma style_declarations_without_colon_witness :
  convertStyle "color:red" = convertStyle "color:red;oops;".
Proof.
  exact (style_declarations_without_colon [ "color:red"; "oops"; "" ]
           ltac:(repeat constructor)).
Defined.

(** ** Further properties: the table of custom properties *)

(** X16.  The table of custom properties is numbered by the counter: in a
    freshly loaded module, and after any sequence of calls of
    [convertHTMLtoJSX] and [setSanitizedFilenameMap], its class names are
    [custom-var-1] to [custom-var-n] in this order, [n] being the counter;
    so no class name is minted twice and every minted class has its
    entry. *)
Theorem custom_classes_numbered json :
  wellNumbered freshGlobals
  ∧ (∀ events g,
       wellNumbered g → wellNumbered (convertHTMLtoJSX json events g).2)
  ∧ (∀ mapping g,
       wellNumbered g → wellNumbered (setSanitizedFilenameMap mapping g).2)
  ∧ (∀ g, wellNumbered g →
       NoDup (cssVarMap g).*1
       ∧ List.length (cssVarMap g) = customClassCounter g).
Proof.
  split_and!.
  - done.
  - intros events g H. by apply (tableGrows_convertHTMLtoJSX json events g).
  - by intros mapping g H.
  - intros g H. split.
    + rewrite H. apply NoDup_fmap_2; [|apply NoDup_seq].
      intros a b. apply customClassName_inj.
    + rewrite <- (length_fmap fst), H, length_fmap. apply length_seq.
Qed.

(** X17.  The table of custom properties only grows.  From a numbered
    table, a call of [convertHTMLtoJSX] keeps every entry as it was and adds
    one entry for each class it mints; the style sheet
    [generateCSSFromVars] writes for the table after the call is the style
    sheet of the table before the call followed by the blocks of the new
    entries.  The style sheet a caller writes for one page therefore holds
    the blocks of all pages converted before. *)
Theorem custom_properties_accumulate json events g :
  wellNumbered g →
  let g' := (convertHTMLtoJSX json events g).2 in
  ∃ added,
    cssVarMap g' = cssVarMap g ++ added
    ∧ customClassCounter g' = customClassCounter g + List.length added
    ∧ generateCSSFromVars (cssVarMap g')
      = generateCSSFromVars (cssVarMap g)
        +:+ blockSeparator (cssVarMap g) added
        +:+ generateCSSFromVars added.
Proof.
  intros H g'.
  destruct (tableGrows_convertHTMLtoJSX json events g H)
    as (_ & added & Ha & Hc).
  exists added. split_and!; [done..|].
  subst g'. rewrite Ha. apply generateCSSFromVars_app.
Qed.

(** The witness of [custom_properties_accumulate]: a second conversion of
    the element with one custom property. *)
Lemma custom_properties_accumulate_witness :
  wellNumbered (minted 1 freshGlobals)
  ∧ ∃ added,
      cssVarMap (convertHTMLtoJSX notJSON customPropertyDocument
                   (minted 1 freshGlobals)).2
      = cssVarMap (minted 1 freshGlobals) ++ added
      ∧ customClassCounter (convertHTMLtoJSX notJSON customPropertyDocument
                              (minted 1 freshGlobals)).2
        = customClassCounter (minted 1 freshGlobals) + List.length added
      ∧ generateCSSFromVars
          (cssVarMap (convertHTMLtoJSX notJSON customPropertyDocument
                        (minted 1 freshGlobals)).2)
        = generateCSSFromVars (cssVarMap (minted 1 freshGlobals))
          +:+ blockSeparator (cssVarMap (minted 1 freshGlobals)) added
          +:+ generateCSSFromVars added.
Proof.
  exact (conj eq_refl
           (custom_properties_accumulate notJSON customPropertyDocument
              (minted 1 freshGlobals) eq_refl)).
Defined.

(** ** Further properties: images *)

(** X18.  The image import table after a call of [convertHTMLtoJSX] is the
    work of that call alone: every entry is a file with an image extension
    under the name [generateImageImportName] gives it, [getImageImports]
    returns one import line for each entry, and neither the result of
    the call nor the state after it depends on what the table held
    before. *)
Theorem imports_of_one_conversion json events g :
  let g' := (convertHTMLtoJSX json events g).2 in
  tableSound g'
  ∧ (getImageImports g').1
    = join lf ((λ filename,
                  importLine (filename, generateImageImportName filename))
               <$> (imageImportsMap g').*1)
  ∧ ∀ g2, sameButImages g g2 →
      convertHTMLtoJSX json events g2 = convertHTMLtoJSX json events g.
Proof.
  intros g'. pose proof (tableSound_convertHTMLtoJSX json events g) as Hs.
  fold g' in Hs. split_and!; [done| |].
  - rewrite getImageImports_lines. f_equal.
    unfold tableSound in Hs. induction Hs as [|[f n] table [_ Hn] _ IH];
      [done|]. cbn in Hn |- *. by rewrite Hn, IH.
  - intros g2 (Hc & Hv & Hm). unfold convertHTMLtoJSX, mbind, M_bind.
    assert (resetImageImports g2 = resetImageImports g) as ->; [|done].
    unfold resetImageImports, modify. by rewrite Hc, Hv, Hm.
Qed.

(** X19.  The import name of an image does not depend on its extension:
    two files that differ in the extension only get the same name, so two
    such images of one page are imported under one identifier. *)
Theorem import_name_ignores_extension base extension extension' :
  has (toLowerCase extension) imageExtensions = true →
  has (toLowerCase extension') imageExtensions = true →
  generateImageImportName (base +:+ "." +:+ extension)
  = generateImageImportName (base +:+ "." +:+ extension').
Proof.
  intros He He'. unfold generateImageImportName.
  by rewrite !stripImageExt_extension.
Qed.

(** The witness of [import_name_ignores_extension]: a logo as PNG and as
    SVG. *)
Lemma import_name_ignores_extension_witness :
  generateImageImportName "logo.png" = generateImageImportName "logo.SVG".
Proof.
  exact (import_name_ignores_extension "logo" "png" "SVG" eq_refl eq_refl).
Defined.

(** X20.  A local image path the sanitized filename map does not know,
    that starts with a slash or does not go through [images-flat/]: the
    file is the last segment of the path; it is registered under that name
    alone, whatever its directory, and the source becomes the import name
    in braces.  Two images of the same file name in two directories
    therefore share one import. *)
Theorem unmapped_image_path segments file g :
  let src := join "/" (segments ++ [ file ]) in
  Forall (λ segment, includes "/" segment = false) segments →
  includes "/" file = false →
  isLocalPath src = true →
  mappedFilename g src = None →
  startsWith "/" src = true ∨ includes "images-flat/" src = false →
  testImageExt file = true →
  fixHtmlImagePath src g
  = ("{" +:+ generateImageImportName file +:+ "}", registered file g).
Proof.
  intros src Hs Hf Hl Hm Hb Hi.
  pose proof (pop_segments segments file Hs Hf) as Hp. fold src in Hp.
  unfold isLocalPath in Hl. apply andb_prop in Hl as [Ht Hl].
  apply negb_true_iff in Hl.
  unfold mappedFilename in Hm.
  unfold fixHtmlImagePath. rewrite Ht, Hl. cbn [negb].
  unfold mbind, M_bind, mret, M_ret.
  change (sanitizedLookup src g) with ((sanitizedLookup src g).1, g).
  cbv iota beta.
  destruct ((sanitizedLookup src g).1) as [f|]; [done|].
  assert (truthy file = true) as Hn by by destruct file.
  destruct (startsWith "/" src).
  - change (sanitizedLookup (drop 1 src) g)
      with ((sanitizedLookup (drop 1 src) g).1, g).
    cbv iota beta. rewrite Hm, Hp, Hn, Hi. done.
  - destruct Hb as [|Hb]; [done|]. rewrite Hb, Hp, Hn, Hi. done.
Qed.

(** The witness of [unmapped_image_path]: an absolute path, no map. *)
Lemma unmapped_image_path_witness :
  fixHtmlImagePath "/img/hero_main.png" freshGlobals
  = ("{heroMain}",
     {| customClassCounter := 0; cssVarMap := [];
        imageImportsMap := [ ("hero_main.png", "heroMain") ];
        sanitizedFilenameMap := ∅ |}).
Proof.
  exact (unmapped_image_path [ ""; "img" ] "hero_main.png" freshGlobals
           ltac:(repeat constructor) eq_refl eq_refl eq_refl
           (or_introl eq_refl) eq_refl).
Defined.

(** ** Further properties: the conversion of a document *)









(** ** Further properties: names with a namespace *)

(** X25.  An attribute name with a namespace, [namespace:attr], becomes
    the namespace followed by [attr] with its first character in upper
    case, without the colon; the namespace [xmlns] is written in lower
    case whatever its case in the document.  The rename table is not
    consulted for such a name. *)
Theorem namespaced_attribute_name namespace attr :
  includes ":" namespace = false → includes ":" attr = false →
  jsxKeyOf (namespace +:+ ":" +:+ attr)
  = (if bool_decide (toLowerCase namespace = "xmlns") then "xmlns"
     else namespace) +:+ capitalise attr
  ∧ (includes ":" (capitalise attr) = false).
Proof.
  intros Hn Ha. split; [by apply jsxKeyOf_namespace_eq|].
  by apply capitalise_colon.
Qed.

(** The witness of [namespaced_attribute_name]: a link of an SVG
    element. *)
Lemma namespaced_attribute_name_witness :
  jsxKeyOf "xlink:href" = "xlinkHref".
Proof.
  exact (proj1 (namespaced_attribute_name "xlink" "href" eq_refl eq_refl)).
Defined.

(** X26.  The namespace of a tag name is dropped: the callbacks for
    [prefix:name] do what the callbacks for [name] do, so that [svg:rect]
    is converted as [rect] is. *)
Theorem namespaced_tag_name json prefix name attributes c g :
  includes ":" prefix = false → oneLine prefix = true →
  includes ":" name = false →
  onopentag json (prefix +:+ ":" +:+ name) attributes c g
  = onopentag json name attributes c g
  ∧ onclosetag (prefix +:+ ":" +:+ name) c = onclosetag name c.
Proof.
  intros Hc Hl Hn. unfold onopentag, onclosetag.
  by rewrite tagNameOf_namespace_eq.
Qed.

(** The witness of [namespaced_tag_name]: a rectangle of an SVG image in
    the body. *)
Lemma namespaced_tag_name_witness :
  onopentag notJSON "svg:rect" [ ("width", "4") ]
    (enterBody [] initialContext) freshGlobals
  = (setStack [ ("rect", false) ]
       (emit ("<rect width=" +:+ dq +:+ "4" +:+ dq +:+ ">")
          (enterBody [] initialContext)), freshGlobals)
  ∧ onclosetag "svg:rect" (enterBody [] initialContext)
    = onclosetag "rect" (enterBody [] initialContext).
Proof.
  exact (namespaced_tag_name notJSON "svg" "rect" [ ("width", "4") ]
           (enterBody [] initialContext) freshGlobals eq_refl eq_refl eq_refl).
Defined.

(** ** Further properties: an image from the page to the import *)


